(** * Window hooks of pluely: [src/hooks/useWindow.ts]

    A shallow embedding of the two React hooks of the file,
    [useWindowResize] and [useWindowFocus], together with the small part
    of the platform they talk to: the page DOM, the timer queue, the
    mutation observer and the Tauri host that receives
    [set_window_height] and delivers focus notifications. *)

From Stdlib Require Import List String Bool ZArith NArith PArith Lia.
Import ListNotations.
Local Open Scope string_scope.
Local Open Scope list_scope.

(** ** Effects

    Code of the hooks runs in a state monad over the world it acts on,
    in which a computation completes normally or throws, as a JavaScript
    statement does. *)

Inductive Completion (A : Type) : Type :=
| Normal (value : A)
| Throw (error : string).

Arguments Normal {A} value.
Arguments Throw {A} error.

Definition Eff (S A : Type) : Type := S -> Completion A * S.

Definition ret {S A : Type} (a : A) : Eff S A := fun w => (Normal a, w).

Definition bind {S A B : Type} (m : Eff S A) (k : A -> Eff S B) : Eff S B :=
  fun w =>
    match m w with
    | (Normal a, w') => k a w'
    | (Throw e, w') => (Throw e, w')
    end.

Definition throw {S A : Type} (e : string) : Eff S A := fun w => (Throw e, w).

(** [try { body } catch (error) { handler }] *)
Definition try_catch {S A : Type} (body : Eff S A) (handler : string -> Eff S A)
  : Eff S A :=
  fun w =>
    match body w with
    | (Normal a, w') => (Normal a, w')
    | (Throw e, w') => handler e w'
    end.

Definition reads {S A : Type} (f : S -> A) : Eff S A := fun w => (Normal (f w), w).

Definition updates {S : Type} (f : S -> S) : Eff S unit := fun w => (Normal tt, f w).

Declare Scope eff_scope.
Delimit Scope eff_scope with eff.
Notation "x <- c ;; k" := (bind c (fun x => k))
  (at level 61, c at next level, right associativity) : eff_scope.
Notation "c ;; k" := (bind c (fun _ => k))
  (at level 61, right associativity) : eff_scope.
Local Open Scope eff_scope.

(** The world a computation leaves behind; what it threw, if anything,
    goes to the platform's error reporting and is not our concern. *)
Definition exec {S A : Type} (m : Eff S A) (w : S) : S := snd (m w).

(** How a promise of the host settles. *)
Inductive HostReply : Type :=
| Resolved
| Rejected (error : string).

(** The value of an awaited promise once it settled: a rejection is
    thrown at the [await]. *)
Definition awaited {S : Type} (r : HostReply) : Eff S unit :=
  match r with
  | Resolved => ret tt
  | Rejected e => throw e
  end.

(** ** The page DOM *)

Module Dom.

Definition Attributes : Type := list (string * string).

#[warnings="-register-all"]
Inductive Element : Type :=
| Node (tag : string) (attrs : Attributes) (children : list Element).

Definition attrs_of (e : Element) : Attributes :=
  match e with Node _ a _ => a end.

Definition children_of (e : Element) : list Element :=
  match e with Node _ _ c => c end.

Definition getAttribute (name : string) (e : Element) : option string :=
  option_map snd (find (fun kv => String.eqb (fst kv) name) (attrs_of e)).

Definition hasAttribute (name : string) (e : Element) : bool :=
  match getAttribute name e with Some _ => true | None => false end.

(** The element and its descendants, in document order. *)
Fixpoint elements (e : Element) : list Element :=
  match e with
  | Node _ _ children => e :: flat_map elements children
  end.

(** A page: the [<html>] element with its [<head>] and [<body>]. *)
Record Document : Type := {
  htmlAttrs : Attributes;
  head : Element;
  body : Element
}.

Definition documentElement (d : Document) : Element :=
  Node "html" (htmlAttrs d) [head d; body d].

(** A node of the page, addressed by child indices from [<head>] or
    from [<body>]. *)
Definition Path : Type := list nat.

Inductive NodeRef : Type :=
| Html
| InHead (p : Path)
| InBody (p : Path).

(** The elements from [root] down to the node at [p], the node first;
    [None] when [p] leaves the tree. *)
Fixpoint chain (acc : list Element) (root : Element) (p : Path)
  : option (list Element) :=
  match p with
  | [] => Some (root :: acc)
  | i :: p' =>
      match nth_error (children_of root) i with
      | Some child => chain (root :: acc) child p'
      | None => None
      end
  end.

(** Inclusive ancestors of a node, the node itself first. *)
Definition inclusiveAncestors (d : Document) (n : NodeRef)
  : option (list Element) :=
  let html := documentElement d in
  match n with
  | Html => Some [html]
  | InHead p => chain [html] (head d) p
  | InBody p => chain [html] (body d) p
  end.

(** The two selector shapes the hooks use: [[name]] and
    [[name="value"]]. *)
Inductive Selector : Type :=
| HasAttr (name : string)
| AttrEquals (name value : string).

Definition matches (sel : Selector) (e : Element) : bool :=
  match sel with
  | HasAttr name => hasAttribute name e
  | AttrEquals name value =>
      match getAttribute name e with
      | Some v => String.eqb v value
      | None => false
      end
  end.

(** [document.querySelectorAll(sel)] *)
Definition querySelectorAll (sel : Selector) (d : Document) : list Element :=
  filter (matches sel) (elements (documentElement d)).

(** [target.closest(sel)] *)
Definition closest (sel : Selector) (d : Document) (target : NodeRef)
  : option Element :=
  match inclusiveAncestors d target with
  | Some up => find (matches sel) up
  | None => None
  end.

(** *** Mutation observers

    The options dictionary of [MutationObserver.observe] and the rule
    of the DOM Standard ("queue a mutation record") that decides
    whether an observer registered on a node is interested in a
    mutation: the node must be an inclusive ancestor of the mutation's
    target; when it is not the target itself the registration needs
    [subtree]; then the kind of the mutation is checked against
    [attributes] and [attributeFilter], [characterData] or
    [childList]. *)

Record MutationObserverInit : Type := {
  childList : bool;
  subtree : bool;
  attributes : bool;
  attributeFilter : option (list string);
  characterData : bool
}.

Inductive MutationType : Type :=
| AttributeChange (name : string)
| ChildListChange
| CharacterDataChange.

Record MutationRecord : Type := {
  mutationType : MutationType;
  mutationTarget : NodeRef
}.

Definition kindObserved (o : MutationObserverInit) (t : MutationType) : bool :=
  match t with
  | AttributeChange name =>
      attributes o &&
      match attributeFilter o with
      | Some names => existsb (String.eqb name) names
      | None => true
      end
  | ChildListChange => childList o
  | CharacterDataChange => characterData o
  end.

(** Interest of an observer registered on [document.body]. *)
Definition bodyObserverInterested (o : MutationObserverInit)
           (r : MutationRecord) : bool :=
  match mutationTarget r with
  | InBody [] => kindObserved o (mutationType r)
  | InBody (_ :: _) => subtree o && kindObserved o (mutationType r)
  | InHead _ | Html => false
  end.

End Dom.

Import Dom.

(** ** The world of [useWindowResize]

    The state the hook can see or change: the page, the platform clock
    and timer queue, the listeners and the observer it registered, the
    host that receives its commands, and the hook's own variables
    ([currentExpandedRef], and [isDragging] and [debounceTimeout] of its
    effect). *)

(** [getCurrentWebviewWindow()] returns the handle of the one window the
    page runs in. *)
Inductive WindowHandle : Type := CurrentWebviewWindow.

Definition getCurrentWebviewWindow : WindowHandle := CurrentWebviewWindow.

(** [invoke(command, { window, height })] *)
Record InvokeCall : Type := {
  command : string;
  window : WindowHandle;
  height : Z
}.

(** A call of [resizeWindow] suspended at [await invoke(...)]: the
    command it sent and the [expanded] its continuation closed over. *)
Record Suspended : Type := {
  sent : InvokeCall;
  requested : bool
}.

(** The two closures handed to [setTimeout]: the one of [handleMouseUp]
    (lines 61-65) and the one of the observer callback (lines 76-80). *)
Inductive TimerCallback : Type :=
| DragReleaseCheck
| DebouncedCheck.

Record Timer : Type := {
  timerId : positive;
  due : N;
  callback : TimerCallback
}.

Record World : Type := {
  (* page and platform *)
  document : Document;
  clock : N;
  timers : list Timer;
  nextTimerId : positive;
  mousedownListener : bool;
  mouseupListener : bool;
  observerConnected : bool;
  (* host *)
  received : list InvokeCall;      (* commands sent to the host, in order *)
  applied : list InvokeCall;       (* commands the host carried out *)
  suspended : list Suspended;      (* calls waiting for the host's reply *)
  console : list string;           (* console.error *)
  (* observation of the timer callbacks that ran, with their due time *)
  evaluations : list (TimerCallback * N);
  (* the hook's variables *)
  currentExpandedRef : option bool;
  isDragging : bool;
  debounceTimeout : option positive
}.

Definition set_document (d : Document) (w : World) : World :=
  {| document := d; clock := clock w; timers := timers w;
     nextTimerId := nextTimerId w; mousedownListener := mousedownListener w;
     mouseupListener := mouseupListener w;
     observerConnected := observerConnected w; received := received w;
     applied := applied w; suspended := suspended w; console := console w;
     evaluations := evaluations w;
     currentExpandedRef := currentExpandedRef w; isDragging := isDragging w;
     debounceTimeout := debounceTimeout w |}.

Definition set_clock (t : N) (w : World) : World :=
  {| document := document w; clock := t; timers := timers w;
     nextTimerId := nextTimerId w; mousedownListener := mousedownListener w;
     mouseupListener := mouseupListener w;
     observerConnected := observerConnected w; received := received w;
     applied := applied w; suspended := suspended w; console := console w;
     evaluations := evaluations w;
     currentExpandedRef := currentExpandedRef w; isDragging := isDragging w;
     debounceTimeout := debounceTimeout w |}.

Definition set_timers (ts : list Timer) (w : World) : World :=
  {| document := document w; clock := clock w; timers := ts;
     nextTimerId := nextTimerId w; mousedownListener := mousedownListener w;
     mouseupListener := mouseupListener w;
     observerConnected := observerConnected w; received := received w;
     applied := applied w; suspended := suspended w; console := console w;
     evaluations := evaluations w;
     currentExpandedRef := currentExpandedRef w; isDragging := isDragging w;
     debounceTimeout := debounceTimeout w |}.

Definition set_nextTimerId (i : positive) (w : World) : World :=
  {| document := document w; clock := clock w; timers := timers w;
     nextTimerId := i; mousedownListener := mousedownListener w;
     mouseupListener := mouseupListener w;
     observerConnected := observerConnected w; received := received w;
     applied := applied w; suspended := suspended w; console := console w;
     evaluations := evaluations w;
     currentExpandedRef := currentExpandedRef w; isDragging := isDragging w;
     debounceTimeout := debounceTimeout w |}.

Definition set_listeners (down up obs : bool) (w : World) : World :=
  {| document := document w; clock := clock w; timers := timers w;
     nextTimerId := nextTimerId w; mousedownListener := down;
     mouseupListener := up;
     observerConnected := obs; received := received w;
     applied := applied w; suspended := suspended w; console := console w;
     evaluations := evaluations w;
     currentExpandedRef := currentExpandedRef w; isDragging := isDragging w;
     debounceTimeout := debounceTimeout w |}.

Definition set_received (cs : list InvokeCall) (w : World) : World :=
  {| document := document w; clock := clock w; timers := timers w;
     nextTimerId := nextTimerId w; mousedownListener := mousedownListener w;
     mouseupListener := mouseupListener w;
     observerConnected := observerConnected w; received := cs;
     applied := applied w; suspended := suspended w; console := console w;
     evaluations := evaluations w;
     currentExpandedRef := currentExpandedRef w; isDragging := isDragging w;
     debounceTimeout := debounceTimeout w |}.

Definition set_applied (cs : list InvokeCall) (w : World) : World :=
  {| document := document w; clock := clock w; timers := timers w;
     nextTimerId := nextTimerId w; mousedownListener := mousedownListener w;
     mouseupListener := mouseupListener w;
     observerConnected := observerConnected w; received := received w;
     applied := cs; suspended := suspended w; console := console w;
     evaluations := evaluations w;
     currentExpandedRef := currentExpandedRef w; isDragging := isDragging w;
     debounceTimeout := debounceTimeout w |}.

Definition set_suspended (ps : list Suspended) (w : World) : World :=
  {| document := document w; clock := clock w; timers := timers w;
     nextTimerId := nextTimerId w; mousedownListener := mousedownListener w;
     mouseupListener := mouseupListener w;
     observerConnected := observerConnected w; received := received w;
     applied := applied w; suspended := ps; console := console w;
     evaluations := evaluations w;
     currentExpandedRef := currentExpandedRef w; isDragging := isDragging w;
     debounceTimeout := debounceTimeout w |}.

Definition set_console (msgs : list string) (w : World) : World :=
  {| document := document w; clock := clock w; timers := timers w;
     nextTimerId := nextTimerId w; mousedownListener := mousedownListener w;
     mouseupListener := mouseupListener w;
     observerConnected := observerConnected w; received := received w;
     applied := applied w; suspended := suspended w; console := msgs;
     evaluations := evaluations w;
     currentExpandedRef := currentExpandedRef w; isDragging := isDragging w;
     debounceTimeout := debounceTimeout w |}.

Definition set_evaluations (evs : list (TimerCallback * N)) (w : World) : World :=
  {| document := document w; clock := clock w; timers := timers w;
     nextTimerId := nextTimerId w; mousedownListener := mousedownListener w;
     mouseupListener := mouseupListener w;
     observerConnected := observerConnected w; received := received w;
     applied := applied w; suspended := suspended w; console := console w;
     evaluations := evs;
     currentExpandedRef := currentExpandedRef w; isDragging := isDragging w;
     debounceTimeout := debounceTimeout w |}.

Definition set_currentExpandedRef (r : option bool) (w : World) : World :=
  {| document := document w; clock := clock w; timers := timers w;
     nextTimerId := nextTimerId w; mousedownListener := mousedownListener w;
     mouseupListener := mouseupListener w;
     observerConnected := observerConnected w; received := received w;
     applied := applied w; suspended := suspended w; console := console w;
     evaluations := evaluations w;
     currentExpandedRef := r; isDragging := isDragging w;
     debounceTimeout := debounceTimeout w |}.

Definition set_isDragging (b : bool) (w : World) : World :=
  {| document := document w; clock := clock w; timers := timers w;
     nextTimerId := nextTimerId w; mousedownListener := mousedownListener w;
     mouseupListener := mouseupListener w;
     observerConnected := observerConnected w; received := received w;
     applied := applied w; suspended := suspended w; console := console w;
     evaluations := evaluations w;
     currentExpandedRef := currentExpandedRef w; isDragging := b;
     debounceTimeout := debounceTimeout w |}.

Definition set_debounceTimeout (t : option positive) (w : World) : World :=
  {| document := document w; clock := clock w; timers := timers w;
     nextTimerId := nextTimerId w; mousedownListener := mousedownListener w;
     mouseupListener := mouseupListener w;
     observerConnected := observerConnected w; received := received w;
     applied := applied w; suspended := suspended w; console := console w;
     evaluations := evaluations w;
     currentExpandedRef := currentExpandedRef w; isDragging := isDragging w;
     debounceTimeout := t |}.

(** Computations of [useWindowResize]. *)
Definition M (A : Type) : Type := Eff World A.

(** *** Platform and host operations *)

(** [setTimeout(callback, delay)]: timer ids are positive integers. *)
Definition setTimeout (cb : TimerCallback) (delay : N) : M positive :=
  fun w =>
    let id := nextTimerId w in
    let t := {| timerId := id; due := (clock w + delay)%N; callback := cb |} in
    (Normal id, set_nextTimerId (Pos.succ id) (set_timers (timers w ++ [t]) w)).

(** [clearTimeout(id)] *)
Definition clearTimeout (id : positive) : M unit :=
  updates (fun w =>
    set_timers (filter (fun t => negb (Pos.eqb (timerId t) id)) (timers w)) w).

(** [console.error(message, error)] *)
Definition console_error (message error : string) : M unit :=
  updates (fun w => set_console (console w ++ [(message ++ " " ++ error)%string]) w).

(** [await invoke(...)]: the command goes to the host and the caller is
    parked until the host replies. *)
Definition await_invoke (c : InvokeCall) (expanded : bool) : M unit :=
  updates (fun w =>
    set_suspended (suspended w ++ [{| sent := c; requested := expanded |}])
      (set_received (received w ++ [c]) w)).

(** ** [useWindowResize] *)

(** Lines 6-11. *)
Definition isAnyPopoverOpen : M bool :=
  popoverContents <-
    reads (fun w =>
      querySelectorAll (HasAttr "data-radix-popper-content-wrapper") (document w)) ;;
  ret (0 <? List.length popoverContents)%nat.

(** [currentExpandedRef.current === expanded] *)
Definition strictEquals (current : option bool) (expanded : bool) : bool :=
  match current with
  | Some b => Bool.eqb b expanded
  | None => false
  end.

(** Lines 17-41, from the call to the [await]. The result tells whether
    the call is parked at the [await] ([true]) or has returned. *)
Definition resizeWindow (expanded : bool) : M bool :=
  try_catch
    (let window := getCurrentWebviewWindow in
     popoverOpen <- isAnyPopoverOpen ;;
     if negb expanded && popoverOpen then ret false
     else
       current <- reads currentExpandedRef ;;
       (* Skip if already in the requested state *)
       if strictEquals current expanded then ret false
       else
         let newHeight := if expanded then 600%Z else 54%Z in
         await_invoke {| command := "set_window_height";
                         window := window;
                         height := newHeight |} expanded ;;
         ret true)
    (fun error => console_error "Failed to resize window:" error ;; ret false).

(** Lines 32-40, from the settled [await] to the end. *)
Definition resizeWindow_resumed (expanded : bool) (reply : HostReply) : M unit :=
  try_catch
    (awaited reply ;;
     updates (set_currentExpandedRef (Some expanded)))
    (fun error => console_error "Failed to resize window:" error).

(** Lines 48-55. *)
Definition handleMouseDown (target : NodeRef) : M unit :=
  isDragRegion <-
    reads (fun w =>
      closest (AttrEquals "data-tauri-drag-region" "true") (document w) target) ;;
  match isDragRegion with
  | Some _ => updates (set_isDragging true)
  | None => ret tt
  end.

(** Lines 57-67. *)
Definition handleMouseUp : M unit :=
  dragging <- reads isDragging ;;
  if dragging then
    updates (set_isDragging false) ;;
    _ <- setTimeout DragReleaseCheck 100 ;;
    ret tt
  else ret tt.

(** Lines 69-81, the callback of the mutation observer. *)
Definition observerCallback : M unit :=
  pending <- reads debounceTimeout ;;
  match pending with
  | Some id => clearTimeout id
  | None => ret tt
  end ;;
  id <- setTimeout DebouncedCheck 150 ;;
  updates (set_debounceTimeout (Some id)).

(** The body shared by both timer closures (lines 62-64 and 77-79);
    [resizeWindow(false)] is not awaited. *)
Definition collapseCheck : M unit :=
  popoverOpen <- isAnyPopoverOpen ;;
  if negb popoverOpen then
    _ <- resizeWindow false ;;
    ret tt
  else ret tt.

(** Lines 85-90. *)
Definition observeOptions : MutationObserverInit :=
  {| childList := true;
     subtree := false;
     attributes := true;
     attributeFilter := Some ["data-state"];
     characterData := false |}.

(** Lines 95-102, the cleanup of the effect. *)
Definition cleanup : M unit :=
  updates (fun w => set_listeners false (mouseupListener w) (observerConnected w) w) ;;
  updates (fun w => set_listeners (mousedownListener w) false (observerConnected w) w) ;;
  updates (fun w => set_listeners (mousedownListener w) (mouseupListener w) false w) ;;
  pending <- reads debounceTimeout ;;
  match pending with
  | Some id => clearTimeout id
  | None => ret tt
  end.

(** The world right after the hook mounted on page [d]: the ref is
    [null], the effect of lines 44-93 has run. *)
Definition mount (d : Document) : World :=
  {| document := d; clock := 0%N; timers := []; nextTimerId := 1%positive;
     mousedownListener := true; mouseupListener := true;
     observerConnected := true;
     received := []; applied := []; suspended := []; console := [];
     evaluations := [];
     currentExpandedRef := None; isDragging := false;
     debounceTimeout := None |}.

(** ** The event loop

    One event is one task of the page's event loop: a pointer event, a
    batch of mutation records delivered to observers, the passing of
    time (which runs the timers that came due), the host's reply to a
    suspended [resizeWindow], a call of the returned [resizeWindow] by
    the owning view, or the unmount of that view. *)

Inductive Event : Type :=
| MouseDown (target : NodeRef)
| MouseUp
| Mutation (page : Document) (records : list MutationRecord)
| Elapse (dt : N)
| HostReplies (n : nat) (reply : HostReply)
| CallResize (expanded : bool)
| Unmount.

(** Timers run in the order of their due time, and in the order of
    their creation when due together. *)
Fixpoint insertByDue (t : Timer) (l : list Timer) : list Timer :=
  match l with
  | [] => [t]
  | u :: l' => if (due u <? due t)%N then u :: insertByDue t l' else t :: l
  end.

Definition firingOrder (l : list Timer) : list Timer :=
  fold_right insertByDue [] l.

Definition fire (t : Timer) : M unit :=
  updates (fun w => set_evaluations (evaluations w ++ [(callback t, due t)]) w) ;;
  collapseCheck.

(** The timer callbacks of this hook neither set nor clear timers, so
    the timers that run while [dt] passes are those already due by
    then. *)
Definition elapse (dt : N) (w : World) : World :=
  let now := (clock w + dt)%N in
  let isDue := fun t => (due t <=? now)%N in
  let ready := firingOrder (filter isDue (timers w)) in
  let w' := set_clock now
              (set_timers (filter (fun t => negb (isDue t)) (timers w)) w) in
  fold_left (fun w0 t => exec (fire t) w0) ready w'.

Fixpoint removeNth {A : Type} (n : nat) (l : list A) : list A :=
  match n, l with
  | _, [] => []
  | O, _ :: l' => l'
  | S n', x :: l' => x :: removeNth n' l'
  end.

(** The host settles the promise of the [n]-th suspended call, which
    resumes it; when the promise resolves, the host has carried the
    command out. The completion is that of the resumed [resizeWindow]. *)
Definition settle (n : nat) (reply : HostReply) : M unit :=
  fun w =>
    match nth_error (suspended w) n with
    | None => (Normal tt, w)
    | Some s =>
        let w1 := set_suspended (removeNth n (suspended w)) w in
        let w2 := match reply with
                  | Resolved => set_applied (applied w1 ++ [sent s]) w1
                  | Rejected _ => w1
                  end in
        resizeWindow_resumed (requested s) reply w2
    end.

Definition hostReplies (n : nat) (reply : HostReply) (w : World) : World :=
  exec (settle n reply) w.

Definition step (e : Event) (w : World) : World :=
  match e with
  | MouseDown target =>
      if mousedownListener w then exec (handleMouseDown target) w else w
  | MouseUp =>
      if mouseupListener w then exec handleMouseUp w else w
  | Mutation page records =>
      let w' := set_document page w in
      if observerConnected w'
         && existsb (bodyObserverInterested observeOptions) records
      then exec observerCallback w'
      else w'
  | Elapse dt => elapse dt w
  | HostReplies n reply => hostReplies n reply w
  | CallResize expanded => exec (resizeWindow expanded) w
  | Unmount => exec cleanup w
  end.

Definition run (events : list Event) (w : World) : World :=
  fold_left (fun w0 e => step e w0) events w.

(** [await resizeWindow(expanded)]: the call, and when it was parked at
    the [await], the host's reply to it, with nothing in between. *)
Definition awaitResizeWindow (reply : HostReply) (expanded : bool) : M unit :=
  parked <- resizeWindow expanded ;;
  if parked : bool then
    n <- reads (fun w => List.length (suspended w) - 1)%nat ;;
    settle n reply
  else ret tt.

(** ** Example pages *)

Definition emptyHead : Element := Node "head" [] [].

(** A page with a drag region and a closed popover trigger. *)
Definition pageIdle : Document :=
  {| htmlAttrs := [];
     head := emptyHead;
     body := Node "body" []
               [Node "div" [("id", "root")]
                  [Node "div" [("data-tauri-drag-region", "true")]
                     [Node "span" [] []];
                   Node "button" [("data-state", "closed")] []]] |}.

(** The same page with a popover open: its content wrapper is portalled
    to the end of [<body>]. *)
Definition pagePopover : Document :=
  {| htmlAttrs := [];
     head := emptyHead;
     body := Node "body" []
               [Node "div" [("id", "root")]
                  [Node "div" [("data-tauri-drag-region", "true")]
                     [Node "span" [] []];
                   Node "button" [("data-state", "open")] []];
                Node "div" [("data-radix-popper-content-wrapper", "")]
                  [Node "div" [("data-state", "open")] []]] |}.

(** ** Reading the world *)

(** The overlay-visibility predicate, as [isAnyPopoverOpen] computes
    it in world [w]. *)
Definition popoverOpen (w : World) : bool :=
  match fst (isAnyPopoverOpen w) with
  | Normal b => b
  | Throw _ => false
  end.

(** The command [resizeWindow expanded] sends. *)
Definition setWindowHeight (expanded : bool) : InvokeCall :=
  {| command := "set_window_height";
     window := getCurrentWebviewWindow;
     height := if expanded then 600%Z else 54%Z |}.

(** The expansion state a command stands for. *)
Definition stateOf (c : InvokeCall) : bool := (height c =? 600)%Z.

(** The last state the host applied successfully, if any. *)
Definition lastApplied (w : World) : option bool :=
  match rev (applied w) with
  | c :: _ => Some (stateOf c)
  | [] => None
  end.

(** The commands event [e] makes the hook send in world [w]. *)
Definition issuedBy (e : Event) (w : World) : list InvokeCall :=
  skipn (List.length (received w)) (received (step e w)).

(** A world with the call parked: the command sent, the continuation
    waiting. *)
Definition parkedWorld (expanded : bool) (w : World) : World :=
  set_suspended
    (suspended w ++ [{| sent := setWindowHeight expanded; requested := expanded |}])
    (set_received (received w ++ [setWindowHeight expanded]) w).

(** ** [useWindowFocus] *)

Module Focus.

(** The host's side of [window.onFocusChanged(handler)]: nothing asked
    yet, the registration is under way, the handler receives
    notifications, the handler was removed, or the registration
    failed. *)
Inductive Subscription : Type :=
| Absent
| Registering
| Listening
| Unlistened
| Refused.

(** The function the resolved promise of [onFocusChanged] yields. *)
Inductive UnlistenFn : Type := RemoveListener.

(** The caller's callbacks act on the state of the owning view. *)
Definition Callback (App : Type) : Type := App -> App.

(** Lines 108-111. *)
Record UseWindowFocusOptions (App : Type) : Type := {
  onFocusLost : option (Callback App);
  onFocusGained : option (Callback App)
}.

Arguments onFocusLost {App} _.
Arguments onFocusGained {App} _.

Record World (App : Type) : Type := {
  app : App;                       (* state of the owning view *)
  subscription : Subscription;     (* host *)
  console : list string;           (* console.error *)
  unlisten : option UnlistenFn     (* the effect's variable, [null] at first *)
}.

Arguments app {App} _.
Arguments subscription {App} _.
Arguments console {App} _.
Arguments unlisten {App} _.

Definition set_app {App : Type} (a : App) (w : World App) : World App :=
  {| app := a; subscription := subscription w; console := console w;
     unlisten := unlisten w |}.

Definition set_subscription {App : Type} (s : Subscription) (w : World App)
  : World App :=
  {| app := app w; subscription := s; console := console w;
     unlisten := unlisten w |}.

Definition set_console {App : Type} (msgs : list string) (w : World App)
  : World App :=
  {| app := app w; subscription := subscription w; console := msgs;
     unlisten := unlisten w |}.

Definition set_unlisten {App : Type} (u : option UnlistenFn) (w : World App)
  : World App :=
  {| app := app w; subscription := subscription w; console := console w;
     unlisten := u |}.

Definition console_error {App : Type} (message error : string)
  : Eff (World App) unit :=
  updates (fun w => set_console (console w ++ [(message ++ " " ++ error)%string]) w).

(** A JavaScript value used as a condition. *)
Definition truthy {A : Type} (v : option A) : bool :=
  match v with Some _ => true | None => false end.

(** [f()]: calling [undefined] raises a [TypeError]. *)
Definition call {App : Type} (f : option (Callback App)) : Eff (World App) unit :=
  match f with
  | Some g => updates (fun w => set_app (g (app w)) w)
  | None => throw "TypeError: not a function"
  end.

(** Lines 117-126. *)
Definition handleFocusChange {App : Type} (options : UseWindowFocusOptions App)
           (focused : bool) : Eff (World App) unit :=
  if focused && truthy (onFocusGained options) then
    call (onFocusGained options)
  else if negb focused && truthy (onFocusLost options) then
    call (onFocusLost options)
  else ret tt.

(** Lines 131-138, [setupFocusListener] from its call to the [await]:
    the registration starts on the host. *)
Definition setupFocusListener {App : Type} : Eff (World App) unit :=
  try_catch
    (updates (set_subscription Registering))
    (fun error => console_error "Failed to setup focus listener:" error).

(** Lines 136-141, from the settled [await] to the end. *)
Definition setupFocusListener_resumed {App : Type} (reply : HostReply)
  : Eff (World App) unit :=
  try_catch
    (awaited reply ;;
     updates (set_unlisten (Some RemoveListener)))
    (fun error => console_error "Failed to setup focus listener:" error).

(** [unlisten()] *)
Definition callUnlisten {App : Type} (u : UnlistenFn) : Eff (World App) unit :=
  match u with
  | RemoveListener => updates (set_subscription Unlistened)
  end.

(** Lines 147-151, the cleanup of the effect. *)
Definition cleanup {App : Type} : Eff (World App) unit :=
  u <- reads unlisten ;;
  match u with
  | Some f => callUnlisten f
  | None => ret tt
  end.

(** The world right after the hook mounted in a view with state [a]:
    the effect of lines 128-144 has run up to the [await]. *)
Definition mount {App : Type} (a : App) : World App :=
  exec setupFocusListener
    {| app := a; subscription := Absent; console := []; unlisten := None |}.

Inductive Event : Type :=
| SubscribeSettles (reply : HostReply)
| FocusChanged (focused : bool)
| Unmount.

Definition step {App : Type} (options : UseWindowFocusOptions App)
           (e : Event) (w : World App) : World App :=
  match e with
  | SubscribeSettles reply =>
      match subscription w with
      | Registering =>
          let hostSide := match reply with
                          | Resolved => Listening
                          | Rejected _ => Refused
                          end in
          exec (setupFocusListener_resumed reply) (set_subscription hostSide w)
      | _ => w
      end
  | FocusChanged focused =>
      match subscription w with
      | Listening => exec (handleFocusChange options focused) w
      | _ => w
      end
  | Unmount => exec cleanup w
  end.

Definition run {App : Type} (options : UseWindowFocusOptions App)
           (events : list Event) (w : World App) : World App :=
  fold_left (fun w0 e => step options e w0) events w.

End Focus.

(** The world in which the continuation of an awaited call resumes. *)
Definition repliedWorld (reply : HostReply) (expanded : bool) (w : World) : World :=
  let w1 := set_received (received w ++ [setWindowHeight expanded]) w in
  match reply with
  | Resolved => set_applied (applied w ++ [setWindowHeight expanded]) w1
  | Rejected _ => w1
  end.

(** What every reachable world satisfies: the ref holds the last state
    the host applied, and every parked call waits for the reply to the
    command of the state it asked for. *)
Definition consistent (w : World) : Prop :=
  currentExpandedRef w = lastApplied w
  /\ Forall (fun s => sent s = setWindowHeight (requested s)) (suspended w).

(** A command for a state other than the remembered one. *)
Definition differsFromRef (w : World) (c : InvokeCall) : Prop :=
  currentExpandedRef w <> Some (stateOf c).

(** ** Mutation bursts *)

(** A batch of mutation records delivered to observers, with the page
    as it is after the mutations. *)
Definition Batch : Type := (Document * list MutationRecord)%type.

Definition mutationOf (b : Batch) : Event := Mutation (fst b) (snd b).

(** The observer of the hook is called for the batch. *)
Definition observedBatch (b : Batch) : bool :=
  existsb (bodyObserverInterested observeOptions) (snd b).

(** The batches that follow the first one of a burst, each with the
    time since the batch before it. *)
Fixpoint burstTail (rest : list (N * Batch)) : list Event :=
  match rest with
  | [] => []
  | (gap, b) :: rest' => Elapse gap :: mutationOf b :: burstTail rest'
  end.

Definition burst (first : Batch) (rest : list (N * Batch)) : list Event :=
  mutationOf first :: burstTail rest.

(** Time from the first batch of a burst to its last. *)
Fixpoint span (rest : list (N * Batch)) : N :=
  match rest with
  | [] => 0%N
  | (gap, _) :: rest' => (gap + span rest')%N
  end.

(** No timer is pending but, possibly, the one [debounceTimeout]
    names. *)
Definition onlyDebounceTimer (w : World) : Prop :=
  Forall (fun t => callback t = DebouncedCheck
                   /\ debounceTimeout w = Some (timerId t)) (timers w).

(** Exactly the debounce timer is pending, due at [d]. *)
Definition armed (d : N) (w : World) : Prop :=
  exists id,
    timers w = [{| timerId := id; due := d; callback := DebouncedCheck |}]
    /\ debounceTimeout w = Some id
    /\ observerConnected w = true.

(** ** More example data *)

(** [pageIdle] after the popover trigger switched its [data-state] to
    open, before any popover content is in the page. *)
Definition pageTriggerOpen : Document :=
  {| htmlAttrs := [];
     head := emptyHead;
     body := Node "body" []
               [Node "div" [("id", "root")]
                  [Node "div" [("data-tauri-drag-region", "true")]
                     [Node "span" [] []];
                   Node "button" [("data-state", "open")] []]] |}.

(** The [<span>] inside the drag region and the popover trigger. *)
Definition dragHandle : NodeRef := InBody [0; 0; 0]%nat.
Definition popoverTrigger : NodeRef := InBody [0; 1]%nat.

(** A child of [<body>] was added or removed. *)
Definition bodyChildList : MutationRecord :=
  {| mutationType := ChildListChange; mutationTarget := InBody [] |}.

(** The trigger's [data-state] attribute changed. *)
Definition triggerToggled : MutationRecord :=
  {| mutationType := AttributeChange "data-state";
     mutationTarget := popoverTrigger |}.

(** A view that counts how often each callback ran. *)
Definition countGained : Focus.Callback (nat * nat) :=
  fun c => (S (fst c), snd c).
Definition countLost : Focus.Callback (nat * nat) :=
  fun c => (fst c, S (snd c)).
Definition countingOptions : Focus.UseWindowFocusOptions (nat * nat) :=
  {| Focus.onFocusLost := Some countLost;
     Focus.onFocusGained := Some countGained |}.

(** ** Further vocabulary *)

(** The selector of line 50. *)
Definition dragRegion : Selector := AttrEquals "data-tauri-drag-region" "true".

(** Events that come from the page and the clock, not from the owning
    view or the host. *)
Definition ambient (e : Event) : bool :=
  match e with
  | MouseDown _ | MouseUp | Mutation _ _ | Elapse _ => true
  | HostReplies _ _ | CallResize _ | Unmount => false
  end.

Definition isDebounced (t : Timer) : bool :=
  match callback t with
  | DebouncedCheck => true
  | DragReleaseCheck => false
  end.

(** A timer queue as the hook keeps it, with the next id to hand out
    and the id [debounceTimeout] holds: ids are distinct and were
    handed out before, and [debounceTimeout] names the pending debounce
    timer and no other pending timer. *)
Definition freshQueue (ts : list Timer) (next : positive)
           (named : option positive) : Prop :=
  NoDup (map timerId ts)
  /\ Forall (fun t => (timerId t < next)%positive) ts
  /\ (forall id, named = Some id -> (id < next)%positive)
  /\ Forall (fun t => callback t = DebouncedCheck <->
                      named = Some (timerId t)) ts.

Definition timersFresh (w : World) : Prop :=
  freshQueue (timers w) (nextTimerId w) (debounceTimeout w).

(** Every command received by the host is accounted for: carried out,
    logged as failed, or still awaited. *)
Definition accounted (w : World) : Prop :=
  List.length (received w) =
    (List.length (applied w) + List.length (console w)
     + List.length (suspended w))%nat.

(** What one focus notification does to the owning view. *)
Definition reaction {App : Type} (options : Focus.UseWindowFocusOptions App)
           (focused : bool) (a : App) : App :=
  match focused, Focus.onFocusGained options, Focus.onFocusLost options with
  | true, Some gained, _ => gained a
  | false, _, Some lost => lost a
  | _, _, _ => a
  end.

(** The host no longer delivers, or never delivered, notifications. *)
Definition silent {App : Type} (w : Focus.World App) : Prop :=
  Focus.subscription w = Focus.Unlistened
  \/ Focus.subscription w = Focus.Refused
  \/ Focus.subscription w = Focus.Absent.

(** ** Properties of [resizeWindow] *)

Lemma isAnyPopoverOpen_reads (w : World) :
  isAnyPopoverOpen w = (Normal (popoverOpen w), w).
Proof. reflexivity. Qed.

Lemma resizeWindow_cases (expanded : bool) (w : World) :
  resizeWindow expanded w =
    if negb expanded && popoverOpen w then (Normal false, w)
    else if strictEquals (currentExpandedRef w) expanded then (Normal false, w)
    else (Normal true, parkedWorld expanded w).
Proof.
  unfold resizeWindow, try_catch, bind.
  rewrite isAnyPopoverOpen_reads.
  destruct (negb expanded && popoverOpen w); [reflexivity|].
  unfold reads.
  destruct (strictEquals (currentExpandedRef w) expanded); reflexivity.
Qed.

Lemma strictEquals_true (current : option bool) (expanded : bool) :
  strictEquals current expanded = true <-> current = Some expanded.
Proof.
  destruct current as [b|]; simpl.
  - rewrite Bool.eqb_true_iff. split; congruence.
  - split; discriminate.
Qed.

Lemma strictEquals_false (current : option bool) (expanded : bool) :
  strictEquals current expanded = false <-> current <> Some expanded.
Proof.
  rewrite <- strictEquals_true.
  destruct (strictEquals current expanded); split; congruence.
Qed.

Lemma overlay_guard_passes (expanded : bool) (w : World) :
  (expanded = false -> popoverOpen w = false) ->
  negb expanded && popoverOpen w = false.
Proof.
  destruct expanded; simpl; auto.
Qed.

Lemma resizeWindow_passes (expanded : bool) (w : World) :
  (expanded = false -> popoverOpen w = false) ->
  currentExpandedRef w <> Some expanded ->
  resizeWindow expanded w = (Normal true, parkedWorld expanded w).
Proof.
  intros Hov Hne.
  rewrite resizeWindow_cases, (overlay_guard_passes _ _ Hov).
  apply strictEquals_false in Hne. rewrite Hne. reflexivity.
Qed.

Lemma filter_nonempty {A : Type} (f : A -> bool) (l : list A) :
  (0 <? List.length (filter f l))%nat = true <-> exists x, In x l /\ f x = true.
Proof.
  rewrite Nat.ltb_lt. split.
  - destruct (filter f l) as [|x l'] eqn:E; simpl; [lia|].
    intros _. exists x. apply filter_In. rewrite E. left. reflexivity.
  - intros [x Hx]. apply filter_In in Hx.
    destruct (filter f l); simpl; [contradiction | lia].
Qed.

(** The predicate is true exactly when some element of the document
    carries the overlay-content marker. *)
Lemma popoverOpen_iff (w : World) :
  popoverOpen w = true <->
  exists e, In e (elements (documentElement (document w)))
            /\ hasAttribute "data-radix-popper-content-wrapper" e = true.
Proof.
  unfold popoverOpen, isAnyPopoverOpen, bind, reads, ret, querySelectorAll.
  cbn [fst]. apply filter_nonempty.
Qed.

Lemma issuedBy_nothing (e : Event) (w : World) :
  received (step e w) = received w -> issuedBy e w = [].
Proof.
  unfold issuedBy. intros ->. apply skipn_all.
Qed.

Lemma issuedBy_appended (e : Event) (w : World) (cs : list InvokeCall) :
  received (step e w) = received w ++ cs -> issuedBy e w = cs.
Proof.
  unfold issuedBy. intros ->.
  rewrite skipn_app, skipn_all, Nat.sub_diag. reflexivity.
Qed.

Lemma nth_error_last {A : Type} (l : list A) (x : A) :
  nth_error (l ++ [x]) (List.length (l ++ [x]) - 1) = Some x.
Proof.
  rewrite length_app. simpl.
  replace (List.length l + 1 - 1)%nat with (List.length l) by lia.
  rewrite nth_error_app2, Nat.sub_diag; [reflexivity | lia].
Qed.

Lemma removeNth_last {A : Type} (l : list A) (x : A) :
  removeNth (List.length (l ++ [x]) - 1) (l ++ [x]) = l.
Proof.
  rewrite length_app. simpl.
  replace (List.length l + 1 - 1)%nat with (List.length l) by lia.
  induction l as [|y l IH]; simpl; [reflexivity | now rewrite IH].
Qed.

Lemma awaitResizeWindow_passes (reply : HostReply) (expanded : bool) (w : World) :
  (expanded = false -> popoverOpen w = false) ->
  currentExpandedRef w <> Some expanded ->
  awaitResizeWindow reply expanded w =
    resizeWindow_resumed expanded reply (repliedWorld reply expanded w).
Proof.
  intros Hov Hne.
  unfold awaitResizeWindow, bind.
  rewrite (resizeWindow_passes _ _ Hov Hne).
  unfold reads, settle, parkedWorld. cbn [suspended set_suspended set_received].
  rewrite nth_error_last, removeNth_last.
  destruct w, reply; reflexivity.
Qed.

Lemma awaitResizeWindow_skips (reply : HostReply) (expanded : bool) (w : World) :
  currentExpandedRef w = Some expanded ->
  awaitResizeWindow reply expanded w = (Normal tt, w).
Proof.
  intros Heq. unfold awaitResizeWindow, bind.
  rewrite resizeWindow_cases.
  destruct (negb expanded && popoverOpen w); [reflexivity|].
  apply strictEquals_true in Heq. rewrite Heq. reflexivity.
Qed.

(** C2: [resizeWindow(false)] called while at least one element of the
    document carries the overlay-content marker returns at once: it
    sends no command to the host and leaves the whole world, the
    remembered state included, as it was, whatever that state is. *)
Theorem resizeWindow_collapse_blocked_by_overlay (w : World) :
  (exists e, In e (elements (documentElement (document w)))
             /\ hasAttribute "data-radix-popper-content-wrapper" e = true) ->
  resizeWindow false w = (Normal false, w)
  /\ issuedBy (CallResize false) w = []
  /\ currentExpandedRef (step (CallResize false) w) = currentExpandedRef w.
Proof.
  intros Hopen. apply popoverOpen_iff in Hopen.
  assert (Hcall : resizeWindow false w = (Normal false, w)).
  { rewrite resizeWindow_cases, Hopen. reflexivity. }
  split; [exact Hcall|].
  split.
  - apply issuedBy_nothing. cbn [step]. unfold exec. now rewrite Hcall.
  - cbn [step]. unfold exec. now rewrite Hcall.
Qed.

Lemma resizeWindow_collapse_blocked_by_overlay_witness :
  let w := set_currentExpandedRef (Some true) (mount pagePopover) in
  resizeWindow false w = (Normal false, w)
  /\ issuedBy (CallResize false) w = []
  /\ currentExpandedRef (step (CallResize false) w) = Some true.
Proof.
  apply (resizeWindow_collapse_blocked_by_overlay
           (set_currentExpandedRef (Some true) (mount pagePopover))).
  exists (Node "div" [("data-radix-popper-content-wrapper", "")]
            [Node "div" [("data-state", "open")] []]).
  split; [cbn; tauto | reflexivity].
Defined.

(** C3: when [resizeWindow(expanded)] passes the overlay guard and the
    state-equality guard it sends exactly one command to the host,
    [set_window_height] with height 600 for expanded and 54 for
    collapsed, and parks; when the host resolves, the remembered state
    becomes the requested one and nothing more was sent. *)
Theorem resizeWindow_sends_one_height_command (expanded : bool) (w : World) :
  (expanded = false -> popoverOpen w = false) ->
  currentExpandedRef w <> Some expanded ->
  fst (resizeWindow expanded w) = Normal true
  /\ issuedBy (CallResize expanded) w =
       [{| command := "set_window_height";
           window := getCurrentWebviewWindow;
           height := if expanded then 600%Z else 54%Z |}]
  /\ currentExpandedRef (step (CallResize expanded) w) = currentExpandedRef w
  /\ (let w' := exec (awaitResizeWindow Resolved expanded) w in
      currentExpandedRef w' = Some expanded
      /\ received w' = received w ++ [setWindowHeight expanded]
      /\ applied w' = applied w ++ [setWindowHeight expanded]).
Proof.
  intros Hov Hne.
  pose proof (resizeWindow_passes _ _ Hov Hne) as Hcall.
  split; [now rewrite Hcall|].
  split; [|split].
  - apply issuedBy_appended. cbn [step]. unfold exec. rewrite Hcall. reflexivity.
  - cbn [step]. unfold exec. rewrite Hcall. reflexivity.
  - cbv zeta. unfold exec.
    rewrite (awaitResizeWindow_passes Resolved _ _ Hov Hne).
    repeat split.
Qed.

Lemma resizeWindow_sends_one_height_command_witness :
  issuedBy (CallResize false) (mount pageIdle) =
    [{| command := "set_window_height";
        window := getCurrentWebviewWindow;
        height := 54%Z |}]
  /\ currentExpandedRef (exec (awaitResizeWindow Resolved false) (mount pageIdle))
     = Some false.
Proof.
  pose proof (resizeWindow_sends_one_height_command false (mount pageIdle)) as H.
  destruct H as (_ & Hsent & _ & Href & _).
  - reflexivity.
  - discriminate.
  - split; [exact Hsent | exact Href].
Defined.

Lemma popoverOpen_document (w w' : World) :
  document w' = document w -> popoverOpen w' = popoverOpen w.
Proof.
  unfold popoverOpen, isAnyPopoverOpen, bind, reads, ret. cbn [fst].
  intros ->. reflexivity.
Qed.

Lemma resizeWindow_resumed_rejected (expanded : bool) (error : string) (w : World) :
  resizeWindow_resumed expanded (Rejected error) w =
    (Normal tt,
     set_console (console w ++ [("Failed to resize window:" ++ " " ++ error)%string]) w).
Proof. reflexivity. Qed.

Lemma resizeWindow_resumed_resolved (expanded : bool) (w : World) :
  resizeWindow_resumed expanded Resolved w =
    (Normal tt, set_currentExpandedRef (Some expanded) w).
Proof. reflexivity. Qed.

(** Whatever the host replies, the resumed call completes normally. *)
Lemma settle_never_throws (n : nat) (reply : HostReply) (w : World) :
  fst (settle n reply w) = Normal tt.
Proof.
  unfold settle. destruct (nth_error (suspended w) n); [|reflexivity].
  destruct reply; reflexivity.
Qed.

Lemma resizeWindow_never_throws (expanded : bool) (w : World) :
  exists parked, fst (resizeWindow expanded w) = Normal parked.
Proof.
  rewrite resizeWindow_cases.
  destruct (negb expanded && popoverOpen w); [now exists false|].
  destruct (strictEquals (currentExpandedRef w) expanded);
    [now exists false | now exists true].
Qed.

(** C4: when the host rejects the command, the awaited [resizeWindow]
    still completes normally (the error is caught and only logged), the
    remembered state is what it was before the call, and the next call
    with the same target on the same page sends the command again. A
    rejection that reaches any suspended call likewise throws nothing
    and leaves the remembered state alone. *)
Theorem resizeWindow_failure_swallowed (expanded : bool) (error : string) (w : World) :
  (expanded = false -> popoverOpen w = false) ->
  currentExpandedRef w <> Some expanded ->
  let result := awaitResizeWindow (Rejected error) expanded w in
  fst result = Normal tt
  /\ currentExpandedRef (snd result) = currentExpandedRef w
  /\ applied (snd result) = applied w
  /\ console (snd result) =
       console w ++ [("Failed to resize window: " ++ error)%string]
  /\ issuedBy (CallResize expanded) (snd result) = [setWindowHeight expanded]
  /\ (forall n w0,
        fst (settle n (Rejected error) w0) = Normal tt
        /\ currentExpandedRef (hostReplies n (Rejected error) w0)
           = currentExpandedRef w0).
Proof.
  intros Hov Hne. cbv zeta.
  rewrite (awaitResizeWindow_passes _ _ _ Hov Hne), resizeWindow_resumed_rejected.
  cbn [fst snd repliedWorld].
  repeat (split; [reflexivity|]).
  split.
  - apply issuedBy_appended. cbn [step]. unfold exec.
    rewrite resizeWindow_passes; [reflexivity | | exact Hne].
    intros He. rewrite <- (Hov He). apply popoverOpen_document. reflexivity.
  - intros n w0. split; [apply settle_never_throws|].
    unfold hostReplies, exec, settle.
    destruct (nth_error (suspended w0) n); reflexivity.
Qed.

Lemma resizeWindow_failure_swallowed_witness :
  let result := awaitResizeWindow (Rejected "window is gone") true (mount pageIdle) in
  fst result = Normal tt
  /\ currentExpandedRef (snd result) = None
  /\ issuedBy (CallResize true) (snd result) = [setWindowHeight true].
Proof.
  pose proof (resizeWindow_failure_swallowed true "window is gone" (mount pageIdle)) as H.
  destruct H as (Hok & Href & _ & _ & Hretry & _).
  - discriminate.
  - discriminate.
  - split; [exact Hok | split; [exact Href | exact Hretry]].
Defined.

(** *** The remembered state tracks the host *)

Lemma stateOf_setWindowHeight (expanded : bool) :
  stateOf (setWindowHeight expanded) = expanded.
Proof. destruct expanded; reflexivity. Qed.

Lemma consistent_frame (w w' : World) :
  currentExpandedRef w' = currentExpandedRef w ->
  applied w' = applied w ->
  suspended w' = suspended w ->
  consistent w -> consistent w'.
Proof.
  unfold consistent, lastApplied. intros -> -> ->. auto.
Qed.

Lemma consistent_mount (page : Document) : consistent (mount page).
Proof. split; [reflexivity | constructor]. Qed.

Lemma consistent_resizeWindow (expanded : bool) (w : World) :
  consistent w -> consistent (exec (resizeWindow expanded) w).
Proof.
  intros [Href Hsus]. unfold exec. rewrite resizeWindow_cases.
  destruct (negb expanded && popoverOpen w); [now split|].
  destruct (strictEquals (currentExpandedRef w) expanded); [now split|].
  split; [exact Href|]. cbn.
  apply Forall_app. split; [exact Hsus|]. now constructor.
Qed.

Lemma collapseCheck_cases (w : World) :
  collapseCheck w =
    if negb (popoverOpen w)
    then (Normal tt, exec (resizeWindow false) w)
    else (Normal tt, w).
Proof.
  unfold collapseCheck, bind. rewrite isAnyPopoverOpen_reads.
  destruct (negb (popoverOpen w)); [|reflexivity].
  unfold exec. destruct (resizeWindow_never_throws false w) as [b Hb].
  destruct (resizeWindow false w) as [r w']. cbn in Hb. subst r. reflexivity.
Qed.

Lemma consistent_fire (t : Timer) (w : World) :
  consistent w -> consistent (exec (fire t) w).
Proof.
  intros Hc. unfold exec, fire, bind, updates.
  rewrite collapseCheck_cases.
  set (w1 := set_evaluations _ w).
  assert (Hc1 : consistent w1) by (apply (consistent_frame w); auto).
  destruct (negb (popoverOpen w1)); cbn [snd]; [|exact Hc1].
  now apply consistent_resizeWindow.
Qed.

Lemma consistent_fold_fire (ts : list Timer) (w : World) :
  consistent w ->
  consistent (fold_left (fun w0 t => exec (fire t) w0) ts w).
Proof.
  revert w. induction ts as [|t ts IH]; intros w Hc; simpl; [exact Hc|].
  apply IH. now apply consistent_fire.
Qed.

Lemma Forall_removeNth {A : Type} (P : A -> Prop) (n : nat) (l : list A) :
  Forall P l -> Forall P (removeNth n l).
Proof.
  revert n. induction l as [|x l IH]; intros n H; destruct n; simpl; auto.
  - now inversion H.
  - inversion H; subst. constructor; auto.
Qed.

Lemma consistent_hostReplies (n : nat) (reply : HostReply) (w : World) :
  consistent w -> consistent (hostReplies n reply w).
Proof.
  intros [Href Hsus]. unfold hostReplies, exec, settle.
  destruct (nth_error (suspended w) n) as [s|] eqn:Hn; [|now split].
  assert (Hs : sent s = setWindowHeight (requested s)).
  { apply nth_error_In in Hn. rewrite Forall_forall in Hsus. now apply Hsus. }
  destruct reply as [|error].
  - rewrite resizeWindow_resumed_resolved. split; cbn.
    + unfold lastApplied. cbn. rewrite rev_app_distr. cbn.
      now rewrite Hs, stateOf_setWindowHeight.
    + now apply Forall_removeNth.
  - rewrite resizeWindow_resumed_rejected. split; cbn.
    + exact Href.
    + now apply Forall_removeNth.
Qed.

(** Opens the handlers that touch neither the ref nor the host. *)
Ltac open_handler :=
  unfold exec, handleMouseDown, handleMouseUp, observerCallback, cleanup,
    bind, reads, updates; cbn.

Lemma consistent_step (e : Event) (w : World) :
  consistent w -> consistent (step e w).
Proof.
  intros Hc. destruct e as [target| |page records|dt|n reply|expanded|]; cbn [step].
  - destruct (mousedownListener w); [|exact Hc].
    open_handler. destruct (closest _ _ _); exact Hc.
  - destruct (mouseupListener w); [|exact Hc].
    open_handler. destruct (isDragging w); exact Hc.
  - destruct (_ && _); [|exact Hc].
    open_handler. destruct (debounceTimeout w); exact Hc.
  - unfold elapse. apply consistent_fold_fire. exact Hc.
  - now apply consistent_hostReplies.
  - now apply consistent_resizeWindow.
  - open_handler. destruct (debounceTimeout w); exact Hc.
Qed.

Lemma consistent_run (events : list Event) (w : World) :
  consistent w -> consistent (run events w).
Proof.
  unfold run. revert w.
  induction events as [|e events IH]; intros w Hc; simpl; [exact Hc|].
  apply IH. now apply consistent_step.
Qed.

Lemma reachable_consistent (events : list Event) (page : Document) :
  consistent (run events (mount page)).
Proof. apply consistent_run, consistent_mount. Qed.

Lemma option_eq_dec_bool (current : option bool) (expanded : bool) :
  {current = Some expanded} + {current <> Some expanded}.
Proof. decide equality. apply Bool.bool_dec. Qed.

(** *** Which commands an event can send *)

Lemma resizeWindow_issues (expanded : bool) (w : World) :
  exists cs,
    received (exec (resizeWindow expanded) w) = received w ++ cs
    /\ Forall (differsFromRef w) cs
    /\ currentExpandedRef (exec (resizeWindow expanded) w) = currentExpandedRef w.
Proof.
  unfold exec. rewrite resizeWindow_cases.
  destruct (negb expanded && popoverOpen w);
    [exists []; now rewrite app_nil_r|].
  destruct (strictEquals (currentExpandedRef w) expanded) eqn:Heq;
    [exists []; now rewrite app_nil_r|].
  exists [setWindowHeight expanded]. repeat split.
  constructor; [|constructor].
  unfold differsFromRef. rewrite stateOf_setWindowHeight.
  now apply strictEquals_false.
Qed.

Lemma fire_issues (t : Timer) (w : World) :
  exists cs,
    received (exec (fire t) w) = received w ++ cs
    /\ Forall (differsFromRef w) cs
    /\ currentExpandedRef (exec (fire t) w) = currentExpandedRef w.
Proof.
  unfold exec, fire, bind, updates. rewrite collapseCheck_cases.
  set (w1 := set_evaluations _ w).
  destruct (negb (popoverOpen w1)); cbn [snd];
    [|exists []; now rewrite app_nil_r].
  exact (resizeWindow_issues false w1).
Qed.

Lemma fold_fire_issues (ts : list Timer) (w : World) :
  exists cs,
    received (fold_left (fun w0 t => exec (fire t) w0) ts w) = received w ++ cs
    /\ Forall (differsFromRef w) cs
    /\ currentExpandedRef (fold_left (fun w0 t => exec (fire t) w0) ts w)
       = currentExpandedRef w.
Proof.
  revert w. induction ts as [|t ts IH]; intros w; simpl.
  - exists []. now rewrite app_nil_r.
  - destruct (fire_issues t w) as (cs1 & Hr1 & Hd1 & Href1).
    destruct (IH (exec (fire t) w)) as (cs2 & Hr2 & Hd2 & Href2).
    exists (cs1 ++ cs2). rewrite Hr2, Hr1, Href2, Href1, app_assoc.
    repeat split. apply Forall_app. split; [exact Hd1|].
    unfold differsFromRef in *. now rewrite Href1 in Hd2.
Qed.

Lemma step_issues (e : Event) (w : World) :
  exists cs,
    received (step e w) = received w ++ cs /\ Forall (differsFromRef w) cs.
Proof.
  assert (Hnone : forall w', received w' = received w ->
            exists cs, received w' = received w ++ cs
                       /\ Forall (differsFromRef w) cs).
  { intros w' ->. exists []. now rewrite app_nil_r. }
  destruct e as [target| |page records|dt|n reply|expanded|]; cbn [step].
  - apply Hnone. destruct (mousedownListener w); [|reflexivity].
    open_handler. destruct (closest _ _ _); reflexivity.
  - apply Hnone. destruct (mouseupListener w); [|reflexivity].
    open_handler. destruct (isDragging w); reflexivity.
  - apply Hnone. destruct (_ && _); [|reflexivity].
    open_handler. destruct (debounceTimeout w); reflexivity.
  - unfold elapse.
    destruct (fold_fire_issues
                (firingOrder (filter (fun t => (due t <=? clock w + dt)%N) (timers w)))
                (set_clock (clock w + dt)%N
                   (set_timers
                      (filter (fun t => negb (due t <=? clock w + dt)%N) (timers w)) w)))
      as (cs & Hr & Hd & _).
    exists cs. split; [exact Hr | exact Hd].
  - apply Hnone. unfold hostReplies, exec, settle.
    destruct (nth_error (suspended w) n); [|reflexivity].
    destruct reply; reflexivity.
  - destruct (resizeWindow_issues expanded w) as (cs & Hr & Hd & _).
    exists cs. split; [exact Hr | exact Hd].
  - apply Hnone. open_handler. destruct (debounceTimeout w); reflexivity.
Qed.

(** C1 (amended): after any history of events since mount (calls of
    [resizeWindow], host replies in any order, timers, page changes),
    every command an event makes the hook send is for a state that
    differs from the last state the host applied successfully, and a
    call of [resizeWindow(expanded)] sends either nothing or the one
    command for [expanded]. In particular, when the first call was
    awaited and its command succeeded, [resizeWindow(true)] called
    twice in a row: the second call changes nothing, and the two
    together send exactly one command when the remembered state was
    not already expanded. *)
Theorem resizeWindow_only_on_state_change :
  (forall (events : list Event) (page : Document) (e : Event) (c : InvokeCall),
      let w := run events (mount page) in
      In c (issuedBy e w) -> lastApplied w <> Some (stateOf c))
  /\ (forall (events : list Event) (page : Document) (expanded : bool),
      let w := run events (mount page) in
      issuedBy (CallResize expanded) w = []
      \/ (issuedBy (CallResize expanded) w = [setWindowHeight expanded]
          /\ lastApplied w <> Some expanded))
  /\ (forall (w : World) (reply : HostReply),
      let w1 := exec (awaitResizeWindow Resolved true) w in
      let w2 := exec (awaitResizeWindow reply true) w1 in
      w2 = w1
      /\ (currentExpandedRef w <> Some true ->
          received w2 = received w ++ [setWindowHeight true])).
Proof.
  split; [|split].
  - intros events page e c w Hin.
    destruct (reachable_consistent events page) as [Href _]. fold w in Href.
    destruct (step_issues e w) as (cs & Hr & Hd).
    rewrite (issuedBy_appended _ _ _ Hr) in Hin.
    rewrite Forall_forall in Hd. specialize (Hd c Hin).
    unfold differsFromRef in Hd. now rewrite <- Href.
  - intros events page expanded w.
    destruct (reachable_consistent events page) as [Href _]. fold w in Href.
    rewrite <- Href.
    assert (Hstep : step (CallResize expanded) w = exec (resizeWindow expanded) w)
      by reflexivity.
    unfold exec in Hstep. rewrite resizeWindow_cases in Hstep.
    destruct (negb expanded && popoverOpen w).
    { left. apply issuedBy_nothing. now rewrite Hstep. }
    destruct (strictEquals (currentExpandedRef w) expanded) eqn:Heq.
    { left. apply issuedBy_nothing. now rewrite Hstep. }
    right. split.
    + apply issuedBy_appended. now rewrite Hstep.
    + now apply strictEquals_false.
  - intros w reply w1 w2.
    assert (Href1 : currentExpandedRef w1 = Some true).
    { subst w1. unfold exec.
      destruct (option_eq_dec_bool (currentExpandedRef w) true) as [Heq|Hne].
      - now rewrite (awaitResizeWindow_skips _ _ _ Heq).
      - rewrite awaitResizeWindow_passes; [reflexivity | discriminate | exact Hne]. }
    assert (H21 : w2 = w1).
    { subst w2. unfold exec. now rewrite (awaitResizeWindow_skips _ _ _ Href1). }
    split; [exact H21|].
    intros Hne. rewrite H21. subst w1. unfold exec.
    rewrite awaitResizeWindow_passes; [reflexivity | discriminate | exact Hne].
Qed.

Lemma resizeWindow_only_on_state_change_witness :
  lastApplied (run [CallResize true; HostReplies 0 Resolved] (mount pageIdle))
    <> Some (stateOf (setWindowHeight false))
  /\ (let w := mount pageIdle in
      let w1 := exec (awaitResizeWindow Resolved true) w in
      let w2 := exec (awaitResizeWindow Resolved true) w1 in
      w2 = w1 /\ received w2 = [setWindowHeight true]).
Proof.
  destruct resizeWindow_only_on_state_change as (Hevery & _ & Htwice).
  split.
  - apply (Hevery [CallResize true; HostReplies 0 Resolved] pageIdle
                   (CallResize false) (setWindowHeight false)).
    left. reflexivity.
  - destruct (Htwice (mount pageIdle) Resolved) as [Hsame Hone].
    split; [exact Hsame | apply Hone; discriminate].
Defined.

(** C1, as claimed, fails: [resizeWindow(true)] called twice in a row
    sends two commands when the second call is made while the first is
    still parked at its [await] (the ref is written only once the host
    has replied), so the second call is no no-op; it also sends two
    when the first command is rejected; and the two calls send nothing
    at all when the remembered state is expanded already. *)
Lemma resizeWindow_twice_in_a_row_not_once :
  received (run [CallResize true; CallResize true] (mount pageIdle))
  = [setWindowHeight true; setWindowHeight true]
  /\ issuedBy (CallResize true) (step (CallResize true) (mount pageIdle))
     = [setWindowHeight true]
  /\ received
       (exec (awaitResizeWindow Resolved true)
             (exec (awaitResizeWindow (Rejected "busy") true) (mount pageIdle)))
     = [setWindowHeight true; setWindowHeight true]
  /\ (let w := run [CallResize true; HostReplies 0 Resolved] (mount pageIdle) in
      received
        (exec (awaitResizeWindow Resolved true)
              (exec (awaitResizeWindow Resolved true) w))
      = received w).
Proof. repeat split. Qed.

(** C10: the ref starts as [None], a value neither [Some true] nor
    [Some false]; so as long as the host has applied no command since
    mount, a call of [resizeWindow] that the overlay guard lets through
    sends its command, whichever state it asks for; and whenever the
    equality guard does stop a call, the host has applied a command for
    that very state before. *)
Theorem first_resize_after_mount_is_sent :
  (forall page : Document, currentExpandedRef (mount page) = None)
  /\ (forall (events : list Event) (page : Document) (expanded : bool),
      let w := run events (mount page) in
      applied w = [] ->
      (expanded = false -> popoverOpen w = false) ->
      issuedBy (CallResize expanded) w = [setWindowHeight expanded])
  /\ (forall (events : list Event) (page : Document) (expanded : bool),
      let w := run events (mount page) in
      strictEquals (currentExpandedRef w) expanded = true ->
      exists c, In c (applied w) /\ stateOf c = expanded).
Proof.
  split; [reflexivity | split].
  - intros events page expanded w Hnone Hov.
    destruct (reachable_consistent events page) as [Href _]. fold w in Href.
    unfold lastApplied in Href. rewrite Hnone in Href. cbn in Href.
    apply issuedBy_appended. cbn [step]. unfold exec.
    rewrite resizeWindow_passes; [reflexivity | exact Hov |].
    rewrite Href. discriminate.
  - intros events page expanded w Heq.
    destruct (reachable_consistent events page) as [Href _]. fold w in Href.
    apply strictEquals_true in Heq. rewrite Heq in Href.
    unfold lastApplied in Href.
    destruct (rev (applied w)) as [|c cs] eqn:Hrev; [discriminate|].
    exists c. split.
    + apply in_rev. rewrite Hrev. now left.
    + congruence.
Qed.

Lemma first_resize_after_mount_is_sent_witness :
  issuedBy (CallResize true) (mount pagePopover) = [setWindowHeight true]
  /\ issuedBy (CallResize false) (mount pageIdle) = [setWindowHeight false]
  /\ (exists c,
        In c (applied (run [CallResize true; HostReplies 0 Resolved] (mount pageIdle)))
        /\ stateOf c = true).
Proof.
  destruct first_resize_after_mount_is_sent as (_ & Hfirst & Hguard).
  split; [|split].
  - apply (Hfirst [] pagePopover true); [reflexivity | discriminate].
  - apply (Hfirst [] pageIdle false); [reflexivity | reflexivity].
  - apply (Hguard [CallResize true; HostReplies 0 Resolved] pageIdle true).
    reflexivity.
Defined.

(** ** Properties of the timers and the observer *)

Lemma run_app (evs1 evs2 : list Event) (w : World) :
  run (evs1 ++ evs2) w = run evs2 (run evs1 w).
Proof. unfold run. apply fold_left_app. Qed.

Lemma run_cons (e : Event) (evs : list Event) (w : World) :
  run (e :: evs) w = run evs (step e w).
Proof. reflexivity. Qed.

Lemma armed_onlyDebounceTimer (d : N) (w : World) :
  armed d w -> onlyDebounceTimer w.
Proof.
  intros (id & Ht & Hd & _). unfold onlyDebounceTimer. rewrite Ht.
  constructor; [|constructor]. now split.
Qed.

Lemma clear_debounce_timer (w : World) (id : positive) :
  onlyDebounceTimer w -> debounceTimeout w = Some id ->
  filter (fun t => negb (Pos.eqb (timerId t) id)) (timers w) = [].
Proof.
  unfold onlyDebounceTimer. intros Hall Hid.
  induction (timers w) as [|t ts IH]; [reflexivity|].
  inversion Hall as [|? ? [_ Ht] Hrest]; subst. simpl.
  rewrite Hid in Ht. injection Ht as ->.
  rewrite Pos.eqb_refl. simpl. now apply IH.
Qed.

Lemma no_debounce_no_timer (w : World) :
  onlyDebounceTimer w -> debounceTimeout w = None -> timers w = [].
Proof.
  unfold onlyDebounceTimer. intros Hall Hnone.
  destruct (timers w) as [|t ts]; [reflexivity|].
  inversion Hall as [|? ? [_ Ht] _]; subst. congruence.
Qed.

(** An observed batch replaces whatever debounce timer was pending by a
    new one, due 150ms later. *)
Lemma observed_mutation_arms (w : World) (page : Document)
      (records : list MutationRecord) :
  observerConnected w = true ->
  onlyDebounceTimer w ->
  existsb (bodyObserverInterested observeOptions) records = true ->
  let w1 := step (Mutation page records) w in
  armed (clock w + 150)%N w1
  /\ clock w1 = clock w
  /\ evaluations w1 = evaluations w.
Proof.
  intros Hobs Honly Hrec. cbn [step].
  replace (observerConnected (set_document page w)) with true by (now cbn).
  rewrite Hrec. cbn [andb].
  unfold exec, observerCallback, bind, reads.
  destruct (debounceTimeout (set_document page w)) as [id|] eqn:Hid; cbn in Hid.
  - pose proof (clear_debounce_timer w id Honly Hid) as Hclear.
    cbn. rewrite Hclear. cbn.
    repeat split. eexists. repeat split. exact Hobs.
  - pose proof (no_debounce_no_timer w Honly Hid) as Hnil.
    cbn. rewrite Hnil. cbn.
    repeat split. eexists. repeat split. exact Hobs.
Qed.

(** While the debounce timer is not yet due, time passes and nothing
    runs. *)
Lemma armed_waits (d gap : N) (w : World) :
  armed d w -> (clock w + gap < d)%N ->
  let w1 := step (Elapse gap) w in
  armed d w1
  /\ clock w1 = (clock w + gap)%N
  /\ evaluations w1 = evaluations w.
Proof.
  intros (id & Ht & Hd & Hobs) Hlt. cbn [step]. unfold elapse.
  rewrite Ht. cbn [filter due].
  replace (d <=? clock w + gap)%N with false
    by (symmetry; apply N.leb_gt; exact Hlt).
  cbn. repeat split. exists id. repeat split; assumption.
Qed.

Lemma fire_evaluates_once (t : Timer) (w : World) :
  evaluations (exec (fire t) w) = evaluations w ++ [(callback t, due t)]
  /\ timers (exec (fire t) w) = timers w.
Proof.
  unfold exec, fire, bind, updates. rewrite collapseCheck_cases.
  set (w1 := set_evaluations _ w).
  destruct (negb (popoverOpen w1)); cbn [snd]; [|now split].
  unfold exec. rewrite resizeWindow_cases.
  destruct (negb false && popoverOpen w1); [now split|].
  destruct (strictEquals (currentExpandedRef w1) false); now split.
Qed.

(** Once the debounce timer is due it runs, once. *)
Lemma armed_fires (d quiet : N) (w : World) :
  armed d w -> (d <= clock w + quiet)%N ->
  let w1 := step (Elapse quiet) w in
  evaluations w1 = evaluations w ++ [(DebouncedCheck, d)]
  /\ timers w1 = [].
Proof.
  intros (id & Ht & Hd & Hobs) Hle. cbn [step]. unfold elapse.
  rewrite Ht. cbn [filter due].
  replace (d <=? clock w + quiet)%N with true
    by (symmetry; apply N.leb_le; exact Hle).
  cbn [negb firingOrder fold_right insertByDue fold_left].
  match goal with
  | |- context [exec (fire ?t) ?w0] =>
      destruct (fire_evaluates_once t w0) as [He Hti]; rewrite He, Hti
  end.
  split; reflexivity.
Qed.

(** Through the tail of a burst the timer is re-armed by every batch
    and never runs. *)
Lemma burstTail_rearms (rest : list (N * Batch)) (w : World) :
  armed (clock w + 150)%N w ->
  Forall (fun gb => (fst gb < 150)%N /\ observedBatch (snd gb) = true) rest ->
  let w1 := run (burstTail rest) w in
  armed (clock w1 + 150)%N w1
  /\ clock w1 = (clock w + span rest)%N
  /\ evaluations w1 = evaluations w.
Proof.
  revert w. induction rest as [|[gap b] rest IH]; intros w Harmed Hall.
  - cbn. rewrite N.add_0_r. auto.
  - inversion Hall as [|? ? [Hgap Hobs] Hrest]; subst. cbn in Hgap, Hobs.
    cbn [burstTail span]. rewrite !run_cons.
    destruct (armed_waits _ gap w Harmed) as (Ha1 & Hc1 & He1); [lia|].
    set (w1 := step (Elapse gap) w) in *.
    destruct (observed_mutation_arms w1 (fst b) (snd b)) as (Ha2 & Hc2 & He2).
    { destruct Ha1 as (? & _ & _ & Hconn). exact Hconn. }
    { exact (armed_onlyDebounceTimer _ _ Ha1). }
    { exact Hobs. }
    fold (mutationOf b) in Ha2, Hc2, He2.
    set (w2 := step (mutationOf b) w1) in *.
    rewrite <- Hc2 in Ha2.
    destruct (IH w2 Ha2 Hrest) as (Ha3 & Hc3 & He3).
    cbv zeta. split; [exact Ha3|]. split.
    + rewrite Hc3, Hc2, Hc1. lia.
    + rewrite He3, He2, He1. reflexivity.
Qed.

(** C8 (amended): every observed mutation batch cancels the debounce
    timer pending before it and sets a new one. So when no other timer
    is pending, a burst of observed batches, each less than 150ms after
    the one before, runs no collapse evaluation while it lasts, and
    exactly one once 150ms have passed after its last batch, due 150ms
    after that batch. *)
Theorem debounce_burst_single_evaluation
        (w : World) (first : Batch) (rest : list (N * Batch)) (quiet : N) :
  observerConnected w = true ->
  onlyDebounceTimer w ->
  observedBatch first = true ->
  Forall (fun gb => (fst gb < 150)%N /\ observedBatch (snd gb) = true) rest ->
  (150 <= quiet)%N ->
  evaluations (run (burst first rest) w) = evaluations w
  /\ armed (clock w + span rest + 150)%N (run (burst first rest) w)
  /\ (let w' := run (burst first rest ++ [Elapse quiet]) w in
      evaluations w' =
        evaluations w ++ [(DebouncedCheck, (clock w + span rest + 150)%N)]
      /\ timers w' = []).
Proof.
  intros Hconn Honly Hfirst Hrest Hquiet.
  unfold burst. rewrite run_cons.
  destruct (observed_mutation_arms w (fst first) (snd first) Hconn Honly Hfirst)
    as (Ha1 & Hc1 & He1).
  fold (mutationOf first) in Ha1, Hc1, He1.
  set (w1 := step (mutationOf first) w) in *.
  rewrite <- Hc1 in Ha1.
  destruct (burstTail_rearms rest w1 Ha1 Hrest) as (Ha2 & Hc2 & He2).
  set (w2 := run (burstTail rest) w1) in *.
  assert (Hdue : (clock w2 + 150 = clock w + span rest + 150)%N)
    by (rewrite Hc2, Hc1; reflexivity).
  rewrite Hdue in Ha2.
  split; [now rewrite He2, He1|].
  split; [exact Ha2|].
  cbv zeta. change (mutationOf first :: burstTail rest ++ [Elapse quiet])
    with ((mutationOf first :: burstTail rest) ++ [Elapse quiet]).
  rewrite run_app. change (run [Elapse quiet]) with (step (Elapse quiet)).
  rewrite run_cons. fold w1. fold w2.
  destruct (armed_fires _ quiet w2 Ha2) as [He3 Ht3]; [lia|].
  split; [|exact Ht3].
  rewrite He3, He2, He1. reflexivity.
Qed.

Lemma debounce_burst_single_evaluation_witness :
  let events :=
    burst (pagePopover, [bodyChildList])
          [(100%N, (pagePopover, [bodyChildList]));
           (149%N, (pageIdle, [bodyChildList]))] ++ [Elapse 150] in
  evaluations (run events (mount pageIdle)) = [(DebouncedCheck, 399%N)]
  /\ timers (run events (mount pageIdle)) = [].
Proof.
  pose proof (debounce_burst_single_evaluation
                (mount pageIdle) (pagePopover, [bodyChildList])
                [(100%N, (pagePopover, [bodyChildList]));
                 (149%N, (pageIdle, [bodyChildList]))] 150%N) as H.
  destruct H as (_ & _ & H).
  - reflexivity.
  - constructor.
  - reflexivity.
  - repeat constructor.
  - apply N.le_refl.
  - exact H.
Defined.

(** C8, as claimed, fails: a drag release pending when a mutation
    arrives is not cancelled by it, nor by a second drag release, so
    two timers are pending together and two collapse evaluations run in
    one quiet period; and around a burst of two mutation batches 100ms
    apart that follows a drag release, two collapse evaluations run,
    the first of them inside the burst. *)
Lemma drag_release_timer_is_not_replaced :
  let afterMutation :=
    run [MouseDown dragHandle; MouseUp; Elapse 10; Mutation pageIdle [bodyChildList]]
        (mount pageIdle) in
  let afterSecondRelease :=
    run [MouseDown dragHandle; MouseUp; Elapse 10; MouseDown dragHandle; MouseUp]
        (mount pageIdle) in
  let aroundBurst :=
    run ([MouseDown dragHandle; MouseUp; Elapse 10]
           ++ burst (pageIdle, [bodyChildList]) [(100%N, (pageIdle, [bodyChildList]))]
           ++ [Elapse 150])
        (mount pageIdle) in
  timers afterMutation =
    [{| timerId := 1; due := 100; callback := DragReleaseCheck |};
     {| timerId := 2; due := 160; callback := DebouncedCheck |}]
  /\ evaluations (step (Elapse 150) afterMutation) =
       [(DragReleaseCheck, 100%N); (DebouncedCheck, 160%N)]
  /\ timers afterSecondRelease =
       [{| timerId := 1; due := 100; callback := DragReleaseCheck |};
        {| timerId := 2; due := 110; callback := DragReleaseCheck |}]
  /\ evaluations (step (Elapse 150) afterSecondRelease) =
       [(DragReleaseCheck, 100%N); (DragReleaseCheck, 110%N)]
  /\ evaluations aroundBurst =
       [(DragReleaseCheck, 100%N); (DebouncedCheck, 260%N)].
Proof. repeat split. Qed.

(** *** Teardown *)

Lemma cleanup_detaches (w : World) :
  let w' := step Unmount w in
  mousedownListener w' = false
  /\ mouseupListener w' = false
  /\ observerConnected w' = false.
Proof.
  cbn [step]. unfold exec, cleanup, bind, reads, updates. cbn.
  destruct (debounceTimeout w); repeat split.
Qed.

(** The cleanup cancels the debounce timer. *)
Lemma cleanup_cancels_debounce (w : World) :
  onlyDebounceTimer w -> timers (step Unmount w) = [].
Proof.
  intros Honly. cbn [step]. unfold exec, cleanup, bind, reads, updates. cbn.
  destruct (debounceTimeout w) as [id|] eqn:Hid; cbn.
  - now apply clear_debounce_timer.
  - now apply no_debounce_no_timer.
Qed.

(** With the listeners and the observer detached, pointer events and
    mutations reach no code of the hook. *)
Lemma detached_events_inert (w : World) :
  mousedownListener w = false ->
  mouseupListener w = false ->
  observerConnected w = false ->
  (forall target, step (MouseDown target) w = w)
  /\ step MouseUp w = w
  /\ (forall page records, step (Mutation page records) w = set_document page w).
Proof.
  intros Hd Hu Ho. repeat split; intros; cbn [step].
  - now rewrite Hd.
  - now rewrite Hu.
  - replace (observerConnected (set_document page w)) with false by (now cbn).
    reflexivity.
Qed.

(** C6, at the failing input: a drag release 50ms before the unmount.
    The cleanup detaches the listeners and the observer, yet the
    drag-release timer is still in the queue; 50ms later it runs and
    sends [set_window_height] to the host. *)
Theorem unmount_leaves_drag_release_timer :
  let w := run [MouseDown dragHandle; MouseUp; Elapse 50; Unmount]
               (mount pageIdle) in
  mousedownListener w = false
  /\ mouseupListener w = false
  /\ observerConnected w = false
  /\ timers w = [{| timerId := 1; due := 100; callback := DragReleaseCheck |}]
  /\ evaluations (step (Elapse 50) w) = [(DragReleaseCheck, 100%N)]
  /\ issuedBy (Elapse 50) w = [setWindowHeight false].
Proof. repeat split. Qed.

(** *** What the observer sees *)

Lemma observer_sees_body_children :
  bodyObserverInterested observeOptions bodyChildList = true
  /\ bodyObserverInterested observeOptions
       {| mutationType := AttributeChange "data-state";
          mutationTarget := InBody [] |} = true.
Proof. split; reflexivity. Qed.

(** C7, at the failing input: with [subtree: false] the observer on
    [<body>] is interested in no mutation below [<body>], attribute
    changes included; the popover trigger switching its [data-state]
    does not call the observer, and no collapse check is scheduled. *)
Theorem observer_misses_descendant_attributes :
  (forall (kind : MutationType) (i : nat) (p : Path),
      bodyObserverInterested observeOptions
        {| mutationType := kind; mutationTarget := InBody (i :: p) |} = false)
  /\ bodyObserverInterested observeOptions triggerToggled = false
  /\ step (Mutation pageTriggerOpen [triggerToggled]) (mount pageIdle)
     = set_document pageTriggerOpen (mount pageIdle)
  /\ timers (step (Mutation pageTriggerOpen [triggerToggled]) (mount pageIdle)) = [].
Proof. repeat split. Qed.

(** ** Properties of [useWindowFocus] *)

(** C9: a focus notification runs at most the one callback that matches
    its payload. With payload [true], [onFocusGained] runs when it is
    provided, whatever [onFocusLost] is, and nothing runs when it is
    absent; with payload [false], [onFocusLost] runs when it is
    provided, whatever [onFocusGained] is, and nothing runs when it is
    absent. In every case [handleFocusChange] completes normally: an
    absent callback is never called. *)
Theorem handleFocusChange_one_branch
        (App : Type) (w : Focus.World App) :
  (forall (g : Focus.Callback App) (lost : option (Focus.Callback App)),
      Focus.handleFocusChange
        {| Focus.onFocusLost := lost; Focus.onFocusGained := Some g |} true w
      = (Normal tt, Focus.set_app (g (Focus.app w)) w))
  /\ (forall (l : Focus.Callback App) (gained : option (Focus.Callback App)),
      Focus.handleFocusChange
        {| Focus.onFocusLost := Some l; Focus.onFocusGained := gained |} false w
      = (Normal tt, Focus.set_app (l (Focus.app w)) w))
  /\ (forall lost : option (Focus.Callback App),
      Focus.handleFocusChange
        {| Focus.onFocusLost := lost; Focus.onFocusGained := None |} true w
      = (Normal tt, w))
  /\ (forall gained : option (Focus.Callback App),
      Focus.handleFocusChange
        {| Focus.onFocusLost := None; Focus.onFocusGained := gained |} false w
      = (Normal tt, w))
  /\ (forall (options : Focus.UseWindowFocusOptions App) (focused : bool),
      fst (Focus.handleFocusChange options focused w) = Normal tt).
Proof.
  repeat split.
  intros [[l|] [g|]] [|]; reflexivity.
Qed.

(** With counting callbacks: one notification, one count. *)
Example focus_notifications_counted :
  let w := Focus.run countingOptions [Focus.SubscribeSettles Resolved]
                     (Focus.mount (0, 0)%nat) in
  Focus.app (Focus.step countingOptions (Focus.FocusChanged true) w) = (1, 0)%nat
  /\ Focus.app (Focus.step countingOptions (Focus.FocusChanged false) w) = (0, 1)%nat.
Proof. split; reflexivity. Qed.

(** When the subscription is established before the unmount, the
    cleanup removes the listener and later notifications reach
    nothing. *)
Lemma unmount_after_subscription_unlistens
      (App : Type) (options : Focus.UseWindowFocusOptions App) (a : App)
      (focused : bool) :
  let w := Focus.run options [Focus.SubscribeSettles Resolved; Focus.Unmount]
                     (Focus.mount a) in
  Focus.subscription w = Focus.Unlistened
  /\ Focus.step options (Focus.FocusChanged focused) w = w.
Proof. split; reflexivity. Qed.

(** A failed registration is logged and nothing listens. *)
Lemma subscription_failure_logged
      (App : Type) (options : Focus.UseWindowFocusOptions App) (a : App)
      (error : string) :
  let w := Focus.run options [Focus.SubscribeSettles (Rejected error)]
                     (Focus.mount a) in
  Focus.subscription w = Focus.Refused
  /\ Focus.unlisten w = None
  /\ Focus.console w = [("Failed to setup focus listener: " ++ error)%string].
Proof. repeat split. Qed.

(** C5, at the failing input: the view unmounts while the registration
    is still under way. The cleanup finds [unlisten] still [null] and
    does nothing; when the registration then completes, [unlisten] is
    assigned but never called, the host keeps the listener, and focus
    notifications go on running the callbacks of the unmounted view. *)
Theorem unmount_before_subscription_leaks :
  (forall (App : Type) (options : Focus.UseWindowFocusOptions App) (a : App),
      let w := Focus.run options [Focus.Unmount; Focus.SubscribeSettles Resolved]
                         (Focus.mount a) in
      Focus.subscription w = Focus.Listening
      /\ Focus.unlisten w = Some Focus.RemoveListener
      /\ (forall focused,
            Focus.subscription (Focus.step options (Focus.FocusChanged focused) w)
            = Focus.Listening))
  /\ Focus.app
       (Focus.run countingOptions
          [Focus.Unmount; Focus.SubscribeSettles Resolved;
           Focus.FocusChanged true; Focus.FocusChanged false]
          (Focus.mount (0, 0)%nat))
     = (1, 1)%nat.
Proof.
  split; [|reflexivity].
  intros App options a. repeat split.
  intros focused. cbn.
  destruct options as [[l|] [g|]], focused; reflexivity.
Qed.

(** ** Further properties of [useWindowResize] *)

Lemma resizeWindow_exec_cases (expanded : bool) (w : World) :
  exec (resizeWindow expanded) w =
    if negb expanded && popoverOpen w then w
    else if strictEquals (currentExpandedRef w) expanded then w
    else parkedWorld expanded w.
Proof.
  unfold exec. rewrite resizeWindow_cases.
  destruct (negb expanded && popoverOpen w); [reflexivity|].
  destruct (strictEquals (currentExpandedRef w) expanded); reflexivity.
Qed.

Lemma timer_callback_is_resizeWindow_false_aux (w : World) :
  collapseCheck w = (Normal tt, exec (resizeWindow false) w).
Proof.
  rewrite collapseCheck_cases, resizeWindow_exec_cases. cbn [negb andb].
  destruct (popoverOpen w); reflexivity.
Qed.

Lemma fire_exec (t : Timer) (w : World) :
  exec (fire t) w =
    exec (resizeWindow false)
         (set_evaluations (evaluations w ++ [(callback t, due t)]) w).
Proof.
  unfold exec at 1. unfold fire, bind, updates.
  now rewrite timer_callback_is_resizeWindow_false_aux.
Qed.

(** X1: the popover test the two timer closures make before calling
    [resizeWindow(false)] changes nothing: a timer callback leaves the
    world exactly as a bare [resizeWindow(false)] would, because
    [resizeWindow] makes the same test itself. *)
Theorem timer_callback_is_resizeWindow_false (t : Timer) (w : World) :
  collapseCheck w = (Normal tt, exec (resizeWindow false) w)
  /\ received (exec (fire t) w) = received (step (CallResize false) w)
  /\ suspended (exec (fire t) w) = suspended (step (CallResize false) w)
  /\ currentExpandedRef (exec (fire t) w) = currentExpandedRef w.
Proof.
  split; [apply timer_callback_is_resizeWindow_false_aux|].
  rewrite fire_exec. cbn [step].
  set (w1 := set_evaluations _ w).
  rewrite !resizeWindow_exec_cases.
  change (popoverOpen w1) with (popoverOpen w).
  change (currentExpandedRef w1) with (currentExpandedRef w).
  destruct (negb false && popoverOpen w); [repeat split|].
  destruct (strictEquals (currentExpandedRef w) false); repeat split.
Qed.

(** *** What events can send *)

Lemma fire_sends (t : Timer) (w : World) :
  exists cs,
    received (exec (fire t) w) = received w ++ cs
    /\ Forall (fun c => c = setWindowHeight false) cs
    /\ (popoverOpen w = true \/ currentExpandedRef w = Some false -> cs = [])
    /\ (popoverOpen w = false -> currentExpandedRef w <> Some false ->
        cs = [setWindowHeight false])
    /\ document (exec (fire t) w) = document w
    /\ currentExpandedRef (exec (fire t) w) = currentExpandedRef w.
Proof.
  unfold exec, fire, bind, updates. rewrite collapseCheck_cases.
  set (w1 := set_evaluations _ w).
  change (popoverOpen w1) with (popoverOpen w).
  destruct (popoverOpen w) eqn:Hopen; cbn [negb snd].
  - exists []. rewrite app_nil_r. repeat split; auto. intros; discriminate.
  - rewrite resizeWindow_exec_cases. cbn [negb andb].
    change (popoverOpen w1) with (popoverOpen w). rewrite Hopen.
    change (currentExpandedRef w1) with (currentExpandedRef w).
    destruct (strictEquals (currentExpandedRef w) false) eqn:Heq.
    + exists []. rewrite app_nil_r. repeat split; auto.
      apply strictEquals_true in Heq. intros _ Hne. contradiction.
    + exists [setWindowHeight false]. repeat split; auto.
      apply strictEquals_false in Heq.
      intros [Ho|Hc]; [discriminate | contradiction].
Qed.

Lemma fold_fire_sends (ts : list Timer) (w : World) :
  exists cs,
    received (fold_left (fun w0 t => exec (fire t) w0) ts w) = received w ++ cs
    /\ Forall (fun c => c = setWindowHeight false) cs
    /\ (popoverOpen w = true \/ currentExpandedRef w = Some false -> cs = []).
Proof.
  revert w. induction ts as [|t ts IH]; intros w; simpl.
  - exists []. rewrite app_nil_r. auto.
  - destruct (fire_sends t w) as (cs1 & Hr1 & Hs1 & Hq1 & _ & Hdoc & Href).
    destruct (IH (exec (fire t) w)) as (cs2 & Hr2 & Hs2 & Hq2).
    exists (cs1 ++ cs2). rewrite Hr2, Hr1, app_assoc.
    split; [reflexivity|]. split; [apply Forall_app; auto|].
    intros Hquiet. rewrite (Hq1 Hquiet), Hq2; [reflexivity|].
    rewrite Href, (popoverOpen_document _ _ Hdoc). exact Hquiet.
Qed.

Lemma step_sends (e : Event) (w : World) :
  exists cs,
    received (step e w) = received w ++ cs
    /\ Forall (fun c => c = setWindowHeight false
                        \/ (e = CallResize true /\ c = setWindowHeight true)) cs
    /\ (e <> CallResize true ->
        popoverOpen w = true \/ currentExpandedRef w = Some false -> cs = []).
Proof.
  assert (Hnone : forall w', received w' = received w ->
            exists cs, received w' = received w ++ cs
              /\ Forall (fun c => c = setWindowHeight false
                           \/ (e = CallResize true /\ c = setWindowHeight true)) cs
              /\ (e <> CallResize true ->
                  popoverOpen w = true \/ currentExpandedRef w = Some false ->
                  cs = [])).
  { intros w' ->. exists []. rewrite app_nil_r. auto. }
  destruct e as [target| |page records|dt|n reply|expanded|]; cbn [step].
  - apply Hnone. destruct (mousedownListener w); [|reflexivity].
    open_handler. destruct (closest _ _ _); reflexivity.
  - apply Hnone. destruct (mouseupListener w); [|reflexivity].
    open_handler. destruct (isDragging w); reflexivity.
  - apply Hnone. destruct (_ && _); [|reflexivity].
    open_handler. destruct (debounceTimeout w); reflexivity.
  - unfold elapse.
    match goal with
    | |- context [fold_left _ ?ts ?w0] =>
        destruct (fold_fire_sends ts w0) as (cs & Hr & Hs & Hq)
    end.
    exists cs. split; [exact Hr|]. split.
    + eapply Forall_impl; [|exact Hs]. cbn. auto.
    + intros _ Hquiet. apply Hq. exact Hquiet.
  - apply Hnone. unfold hostReplies, exec, settle.
    destruct (nth_error (suspended w) n); [|reflexivity].
    destruct reply; reflexivity.
  - rewrite resizeWindow_exec_cases.
    destruct (negb expanded && popoverOpen w) eqn:Hov;
      [exists []; rewrite app_nil_r; auto|].
    destruct (strictEquals (currentExpandedRef w) expanded) eqn:Heq;
      [exists []; rewrite app_nil_r; auto|].
    exists [setWindowHeight expanded]. split; [reflexivity|]. split.
    + constructor; [|constructor].
      destruct expanded; [right; auto | left; reflexivity].
    + intros Hne [Ho|Hc].
      * destruct expanded; [congruence|]. cbn [negb andb] in Hov. congruence.
      * destruct expanded; [congruence|].
        apply strictEquals_false in Heq. contradiction.
  - apply Hnone. open_handler. destruct (debounceTimeout w); reflexivity.
Qed.

(** X2: whatever the world, an event makes the hook send only
    [set_window_height] commands with height 600 or 54, and the
    expanding one only when the event is the owning view calling
    [resizeWindow(true)]: pointer events, mutations, timers, host
    replies and the unmount can only ever collapse the window. *)
Theorem only_the_view_expands (w : World) (e : Event) (c : InvokeCall) :
  In c (issuedBy e w) ->
  (command c = "set_window_height" /\ (height c = 600%Z \/ height c = 54%Z))
  /\ (e <> CallResize true -> c = setWindowHeight false).
Proof.
  intros Hin. destruct (step_sends e w) as (cs & Hr & Hs & _).
  rewrite (issuedBy_appended _ _ _ Hr) in Hin.
  rewrite Forall_forall in Hs. destruct (Hs c Hin) as [->|[-> ->]].
  - split; [split; [reflexivity | right; reflexivity] | reflexivity].
  - split; [split; [reflexivity | left; reflexivity] | congruence].
Qed.

Lemma only_the_view_expands_witness :
  let w := run [MouseDown dragHandle; MouseUp] (mount pageIdle) in
  In (setWindowHeight false) (issuedBy (Elapse 100) w)
  /\ command (setWindowHeight false) = "set_window_height"
  /\ (height (setWindowHeight false) = 600%Z
      \/ height (setWindowHeight false) = 54%Z).
Proof.
  split; [left; reflexivity|].
  apply (only_the_view_expands
           (run [MouseDown dragHandle; MouseUp] (mount pageIdle))
           (Elapse 100) (setWindowHeight false)).
  left. reflexivity.
Defined.

(** X3: while a popover is open, or while the remembered state is
    already collapsed, no event other than the owning view calling
    [resizeWindow(true)] makes the hook send anything, however many
    timers come due. *)
Theorem quiet_while_popover_or_collapsed (w : World) (e : Event) :
  e <> CallResize true ->
  popoverOpen w = true \/ currentExpandedRef w = Some false ->
  issuedBy e w = [] /\ received (step e w) = received w.
Proof.
  intros Hne Hquiet. destruct (step_sends e w) as (cs & Hr & _ & Hq).
  rewrite (Hq Hne Hquiet), app_nil_r in Hr.
  split; [now apply issuedBy_nothing | exact Hr].
Qed.

Lemma quiet_while_popover_or_collapsed_witness :
  let w := run [MouseDown dragHandle; MouseUp; Mutation pagePopover [bodyChildList]]
               (mount pageIdle) in
  issuedBy (Elapse 500) w = [] /\ received (step (Elapse 500) w) = received w.
Proof.
  apply (quiet_while_popover_or_collapsed
           (run [MouseDown dragHandle; MouseUp; Mutation pagePopover [bodyChildList]]
                (mount pageIdle)) (Elapse 500)).
  - discriminate.
  - left. reflexivity.
Defined.

(** *** Accounting for commands *)

Lemma accounted_frame (w w' : World) :
  received w' = received w -> applied w' = applied w ->
  console w' = console w -> suspended w' = suspended w ->
  accounted w -> accounted w'.
Proof. unfold accounted. intros -> -> -> ->. auto. Qed.

Lemma accounted_resizeWindow (expanded : bool) (w : World) :
  accounted w -> accounted (exec (resizeWindow expanded) w).
Proof.
  intros Hacc. rewrite resizeWindow_exec_cases.
  destruct (negb expanded && popoverOpen w); [exact Hacc|].
  destruct (strictEquals (currentExpandedRef w) expanded); [exact Hacc|].
  unfold accounted in *. cbn. rewrite !length_app. cbn. lia.
Qed.

Lemma accounted_fire (t : Timer) (w : World) :
  accounted w -> accounted (exec (fire t) w).
Proof.
  intros Hacc. rewrite fire_exec.
  apply accounted_resizeWindow.
  apply (accounted_frame w); auto.
Qed.

Lemma accounted_fold_fire (ts : list Timer) (w : World) :
  accounted w -> accounted (fold_left (fun w0 t => exec (fire t) w0) ts w).
Proof.
  revert w. induction ts as [|t ts IH]; intros w Hacc; simpl; [exact Hacc|].
  apply IH. now apply accounted_fire.
Qed.

Lemma length_removeNth {A : Type} (n : nat) (l : list A) (x : A) :
  nth_error l n = Some x -> S (List.length (removeNth n l)) = List.length l.
Proof.
  revert n. induction l as [|y l IH]; intros [|n] H; simpl in *;
    try discriminate; [reflexivity|].
  now rewrite (IH n H).
Qed.

Lemma accounted_hostReplies (n : nat) (reply : HostReply) (w : World) :
  accounted w -> accounted (hostReplies n reply w).
Proof.
  intros Hacc. unfold hostReplies, exec, settle.
  destruct (nth_error (suspended w) n) as [s|] eqn:Hn; [|exact Hacc].
  pose proof (length_removeNth _ _ _ Hn) as Hlen.
  unfold accounted in *.
  destruct reply as [|error].
  - rewrite resizeWindow_resumed_resolved. cbn. rewrite length_app. cbn. lia.
  - rewrite resizeWindow_resumed_rejected. cbn. rewrite length_app. cbn. lia.
Qed.

Lemma accounted_step (e : Event) (w : World) :
  accounted w -> accounted (step e w).
Proof.
  intros Hacc.
  destruct e as [target| |page records|dt|n reply|expanded|]; cbn [step].
  - destruct (mousedownListener w); [|exact Hacc].
    open_handler. destruct (closest _ _ _); exact Hacc.
  - destruct (mouseupListener w); [|exact Hacc].
    open_handler. destruct (isDragging w); exact Hacc.
  - destruct (_ && _); [|exact Hacc].
    open_handler. destruct (debounceTimeout w); exact Hacc.
  - unfold elapse. apply accounted_fold_fire. exact Hacc.
  - now apply accounted_hostReplies.
  - now apply accounted_resizeWindow.
  - open_handler. destruct (debounceTimeout w); exact Hacc.
Qed.

(** X4: at any moment after mount, every command the host has received
    is accounted for exactly once: the host carried it out, or its
    failure was logged with [console.error], or the call that sent it is
    still waiting at its [await]. In particular the console holds one
    line per failed command and nothing else. *)
Theorem every_command_accounted (events : list Event) (page : Document) :
  let w := run events (mount page) in
  List.length (received w) =
    (List.length (applied w) + List.length (console w)
     + List.length (suspended w))%nat.
Proof.
  cbv zeta. change (accounted (run events (mount page))).
  assert (Hrun : forall evs w, accounted w -> accounted (run evs w)).
  { induction evs as [|e evs IH]; intros w Hacc; [exact Hacc|].
    rewrite run_cons. apply IH. now apply accounted_step. }
  apply Hrun. reflexivity.
Qed.

(** *** The timer queue *)

(** Dropping timers from the queue keeps the ids distinct. *)
Lemma distinct_ids_filter (keep : Timer -> bool) (ts : list Timer) :
  NoDup (map timerId ts) -> NoDup (map timerId (filter keep ts)).
Proof.
  induction ts as [|t ts IH]; intros Hnd; [constructor|].
  cbn [map] in Hnd. apply NoDup_cons_iff in Hnd. destruct Hnd as [Hfresh Hnd].
  cbn [filter]. destruct (keep t); [|now apply IH].
  cbn [map]. apply NoDup_cons; [|now apply IH].
  intros Hin. apply Hfresh.
  apply in_map_iff in Hin. destruct Hin as (u & Hid & Hu).
  apply filter_In in Hu. rewrite <- Hid. apply in_map. tauto.
Qed.

Lemma freshQueue_filter (p : Timer -> bool) (ts : list Timer)
      (next : positive) (named : option positive) :
  freshQueue ts next named -> freshQueue (filter p ts) next named.
Proof.
  intros (Hnd & Hlt & Hnamed & Hdeb).
  split; [|split; [|split]].
  - now apply distinct_ids_filter.
  - rewrite Forall_forall in *. intros t Ht. apply filter_In in Ht. now apply Hlt.
  - exact Hnamed.
  - rewrite Forall_forall in *. intros t Ht. apply filter_In in Ht. now apply Hdeb.
Qed.

Lemma NoDup_snoc_fresh (ts : list Timer) (t : Timer) :
  NoDup (map timerId ts) ->
  Forall (fun u => (timerId u < timerId t)%positive) ts ->
  NoDup (map timerId (ts ++ [t])).
Proof.
  intros Hnd Hlt. rewrite map_app. cbn.
  apply NoDup_app; [exact Hnd | repeat constructor; auto |].
  intros id Hin [Heq|[]]. subst id.
  apply in_map_iff in Hin. destruct Hin as (u & Hu & Hinu).
  rewrite Forall_forall in Hlt. specialize (Hlt u Hinu). lia.
Qed.

Lemma freshQueue_add (ts : list Timer) (next : positive)
      (named named' : option positive) (d : N) (cb : TimerCallback) :
  freshQueue ts next named ->
  (forall id, named' = Some id -> (id <= next)%positive) ->
  Forall (fun t => callback t = DebouncedCheck <-> named' = Some (timerId t)) ts ->
  (cb = DebouncedCheck <-> named' = Some next) ->
  freshQueue (ts ++ [{| timerId := next; due := d; callback := cb |}])
             (Pos.succ next) named'.
Proof.
  intros (Hnd & Hlt & Hnamed & Hdeb) Hnamed' Hdeb' Hnew.
  split; [|split; [|split]].
  - apply NoDup_snoc_fresh; assumption.
  - apply Forall_app. split.
    + eapply Forall_impl; [|exact Hlt]. cbn. intros; lia.
    + constructor; [cbn; lia | constructor].
  - intros id Hid. specialize (Hnamed' id Hid). lia.
  - apply Forall_app. split; [exact Hdeb'|].
    constructor; [exact Hnew | constructor].
Qed.

(** A drag-release timer joins the queue. *)
Lemma freshQueue_drag (ts : list Timer) (next : positive)
      (named : option positive) (d : N) :
  freshQueue ts next named ->
  freshQueue (ts ++ [{| timerId := next; due := d; callback := DragReleaseCheck |}])
             (Pos.succ next) named.
Proof.
  intros Hf. pose proof Hf as (Hnd & Hlt & Hnamed & Hdeb).
  apply (freshQueue_add ts next named); auto.
  - intros id Hid. specialize (Hnamed id Hid). lia.
  - split; [discriminate|]. intros Hid. specialize (Hnamed next Hid). lia.
Qed.

(** A debounce timer joins a queue that holds none. *)
Lemma freshQueue_debounce (ts : list Timer) (next : positive)
      (named : option positive) (d : N) :
  freshQueue ts next named ->
  Forall (fun t => callback t <> DebouncedCheck) ts ->
  freshQueue (ts ++ [{| timerId := next; due := d; callback := DebouncedCheck |}])
             (Pos.succ next) (Some next).
Proof.
  intros Hf Hnone. pose proof Hf as (Hnd & Hlt & Hnamed & Hdeb).
  apply (freshQueue_add ts next named); auto.
  - intros id [= <-]. lia.
  - rewrite Forall_forall in *. intros t Ht. split.
    + intros Hcb. now destruct (Hnone t Ht).
    + intros [= Hid]. specialize (Hlt t Ht). lia.
  - tauto.
Qed.

(** Clearing the timer [debounceTimeout] names leaves no debounce timer
    pending. *)
Lemma freshQueue_cleared (ts : list Timer) (next : positive)
      (named : option positive) :
  freshQueue ts next named ->
  Forall (fun t => callback t <> DebouncedCheck)
         (match named with
          | Some id => filter (fun t => negb (Pos.eqb (timerId t) id)) ts
          | None => ts
          end).
Proof.
  intros (_ & _ & _ & Hdeb). rewrite Forall_forall in *.
  destruct named as [id|]; intros t Ht Hcb.
  - apply filter_In in Ht. destruct Ht as [Ht Hneq].
    apply (Hdeb t Ht) in Hcb. injection Hcb as ->.
    rewrite Pos.eqb_refl in Hneq. discriminate.
  - apply (Hdeb t Ht) in Hcb. discriminate.
Qed.

Lemma fire_keeps_timers (t : Timer) (w : World) :
  timers (exec (fire t) w) = timers w
  /\ nextTimerId (exec (fire t) w) = nextTimerId w
  /\ debounceTimeout (exec (fire t) w) = debounceTimeout w.
Proof.
  rewrite fire_exec, resizeWindow_exec_cases.
  destruct (negb false && _); [repeat split|].
  destruct (strictEquals _ false); repeat split.
Qed.

Lemma fold_fire_keeps_timers (ts : list Timer) (w : World) :
  let w' := fold_left (fun w0 t => exec (fire t) w0) ts w in
  timers w' = timers w
  /\ nextTimerId w' = nextTimerId w
  /\ debounceTimeout w' = debounceTimeout w.
Proof.
  revert w. induction ts as [|t ts IH]; intros w; simpl; [repeat split|].
  destruct (fire_keeps_timers t w) as (Ht & Hn & Hd).
  destruct (IH (exec (fire t) w)) as (Ht' & Hn' & Hd').
  cbv zeta in *. rewrite Ht', Hn', Hd'. auto.
Qed.

Lemma timersFresh_step (e : Event) (w : World) :
  timersFresh w -> timersFresh (step e w).
Proof.
  intros Hf.
  destruct e as [target| |page records|dt|n reply|expanded|]; cbn [step].
  - destruct (mousedownListener w); [|exact Hf].
    open_handler. destruct (closest _ _ _); exact Hf.
  - destruct (mouseupListener w); [|exact Hf].
    open_handler. destruct (isDragging w); [|exact Hf].
    unfold timersFresh. cbn. now apply freshQueue_drag.
  - destruct (_ && _); [|exact Hf].
    open_handler. pose proof (freshQueue_cleared _ _ _ Hf) as Hnone.
    unfold timersFresh in Hf.
    destruct (debounceTimeout w) as [id|]; unfold timersFresh; cbn.
    + apply (freshQueue_debounce _ _ (Some id)); [|exact Hnone].
      now apply freshQueue_filter.
    + now apply (freshQueue_debounce _ _ None).
  - unfold elapse, timersFresh.
    match goal with
    | |- context [fold_left _ ?ts ?w0] =>
        destruct (fold_fire_keeps_timers ts w0) as (Ht & Hn & Hd)
    end.
    cbv zeta in Ht, Hn, Hd. rewrite Ht, Hn, Hd. cbn.
    now apply freshQueue_filter.
  - unfold hostReplies, exec, settle.
    destruct (nth_error (suspended w) n); [|exact Hf].
    destruct reply; exact Hf.
  - rewrite resizeWindow_exec_cases.
    destruct (negb expanded && _); [exact Hf|].
    destruct (strictEquals _ expanded); exact Hf.
  - open_handler.
    destruct (debounceTimeout w) as [id|] eqn:Hid; unfold timersFresh; cbn.
    + rewrite Hid. apply freshQueue_filter. unfold timersFresh in Hf.
      now rewrite Hid in Hf.
    + rewrite Hid. unfold timersFresh in Hf. now rewrite Hid in Hf.
Qed.

Lemma timersFresh_reachable (events : list Event) (page : Document) :
  timersFresh (run events (mount page)).
Proof.
  assert (Hrun : forall evs w, timersFresh w -> timersFresh (run evs w)).
  { induction evs as [|e evs IH]; intros w Hf; [exact Hf|].
    rewrite run_cons. apply IH. now apply timersFresh_step. }
  apply Hrun. unfold timersFresh. cbn.
  split; [constructor | split; [constructor | split; [discriminate | constructor]]].
Qed.

Lemma at_most_one_with_key {A : Type} (f : A -> positive) (p : A -> bool)
      (k : positive) (l : list A) :
  NoDup (map f l) ->
  (forall x, In x l -> p x = true -> f x = k) ->
  (List.length (filter p l) <= 1)%nat.
Proof.
  induction l as [|x l IH]; simpl; intros Hnd Hkey; [lia|].
  inversion Hnd as [|? ? Hnotin Hrest]; subst.
  destruct (p x) eqn:Hpx.
  - assert (Hnil : filter p l = []).
    { destruct (filter p l) as [|y ys] eqn:Hfl; [reflexivity|].
      assert (Hy : In y (filter p l)) by (rewrite Hfl; now left).
      apply filter_In in Hy. destruct Hy as [Hiny Hpy].
      exfalso. apply Hnotin.
      rewrite (Hkey x (or_introl eq_refl) Hpx), <- (Hkey y (or_intror Hiny) Hpy).
      now apply in_map. }
    rewrite Hnil. simpl. lia.
  - apply IH; [exact Hrest|]. intros y Hy. apply Hkey. now right.
Qed.

(** X5: at any moment after mount the pending timers have distinct
    ids, at most one of them is a debounce timer, and a pending timer
    is the debounce timer exactly when [debounceTimeout] holds its id;
    so [clearTimeout(debounceTimeout)] can only ever cancel the pending
    debounce timer. *)
Theorem at_most_one_debounce_timer (events : list Event) (page : Document) :
  let w := run events (mount page) in
  NoDup (map timerId (timers w))
  /\ (List.length (filter isDebounced (timers w)) <= 1)%nat
  /\ (forall t, In t (timers w) ->
        (callback t = DebouncedCheck <-> debounceTimeout w = Some (timerId t))).
Proof.
  cbv zeta. destruct (timersFresh_reachable events page) as (Hnd & _ & _ & Hdeb).
  rewrite Forall_forall in Hdeb.
  split; [exact Hnd|]. split; [|exact Hdeb].
  destruct (debounceTimeout (run events (mount page))) as [id|] eqn:Hid.
  - apply (at_most_one_with_key timerId isDebounced id); [exact Hnd|].
    intros t Ht Hp. unfold isDebounced in Hp.
    destruct (callback t) eqn:Hcb; [discriminate|].
    apply (Hdeb t Ht) in Hcb. congruence.
  - assert (Hnil : filter isDebounced (timers (run events (mount page))) = []).
    { destruct (filter isDebounced _) as [|t ts] eqn:Hfl; [reflexivity|].
      assert (Ht : In t (filter isDebounced (timers (run events (mount page)))))
        by (rewrite Hfl; now left).
      apply filter_In in Ht. destruct Ht as [Ht Hp]. unfold isDebounced in Hp.
      destruct (callback t) eqn:Hcb; [discriminate|].
      apply (Hdeb t Ht) in Hcb. discriminate. }
    rewrite Hnil. simpl. lia.
Qed.

Lemma at_most_one_debounce_timer_witness :
  debounceTimeout
    (run [Mutation pageIdle [bodyChildList]; Elapse 10;
          Mutation pageIdle [bodyChildList]] (mount pageIdle))
  = Some 2%positive.
Proof.
  destruct (at_most_one_debounce_timer
              [Mutation pageIdle [bodyChildList]; Elapse 10;
               Mutation pageIdle [bodyChildList]] pageIdle) as (_ & _ & H).
  apply (H {| timerId := 2; due := 160; callback := DebouncedCheck |}).
  - vm_compute. left. reflexivity.
  - reflexivity.
Defined.

Lemma insertByDue_In (t x : Timer) (l : list Timer) :
  In x (insertByDue t l) <-> x = t \/ In x l.
Proof.
  induction l as [|u l IH]; simpl; [intuition congruence|].
  destruct (due u <? due t)%N; simpl; [rewrite IH|]; intuition congruence.
Qed.

Lemma firingOrder_In (x : Timer) (l : list Timer) :
  In x (firingOrder l) <-> In x l.
Proof.
  unfold firingOrder. induction l as [|t l IH]; simpl; [tauto|].
  rewrite insertByDue_In, IH. intuition congruence.
Qed.

Lemma fold_fire_evaluations (ts : list Timer) (w : World) :
  evaluations (fold_left (fun w0 t => exec (fire t) w0) ts w) =
    evaluations w ++ map (fun t => (callback t, due t)) ts.
Proof.
  revert w. induction ts as [|t ts IH]; intros w; simpl.
  - now rewrite app_nil_r.
  - rewrite IH. destruct (fire_evaluates_once t w) as [-> _].
    now rewrite <- app_assoc.
Qed.

Lemma clearTimeout_keeps (id : positive) (t : Timer) (ts : list Timer) :
  timerId t <> id -> In t ts ->
  In t (filter (fun u => negb (Pos.eqb (timerId u) id)) ts).
Proof.
  intros Hne Hin. apply filter_In. split; [exact Hin|].
  apply negb_true_iff, Pos.eqb_neq. exact Hne.
Qed.

(** X6: nothing cancels a pending drag-release timer. At any moment
    after mount, whatever event comes next (a mutation, another drag,
    a host reply, a call, even the unmount), the timer is still
    pending afterwards; only time removes it, by running it once its
    100ms are over. *)
Theorem drag_release_timer_is_never_cancelled
        (events : list Event) (page : Document) (t : Timer) :
  let w := run events (mount page) in
  In t (timers w) ->
  callback t = DragReleaseCheck ->
  (forall e, (forall dt, e <> Elapse dt) -> In t (timers (step e w)))
  /\ (forall dt, (clock w + dt < due t)%N -> In t (timers (step (Elapse dt) w)))
  /\ (forall dt, (due t <= clock w + dt)%N ->
        exists before after,
          evaluations (step (Elapse dt) w) =
            evaluations w ++ before ++ (DragReleaseCheck, due t) :: after).
Proof.
  cbv zeta. set (w := run events (mount page)). intros Hin Hcb.
  assert (Hnot : forall id, debounceTimeout w = Some id -> timerId t <> id).
  { intros id Hid Heq.
    destruct (timersFresh_reachable events page) as (_ & _ & _ & Hdeb).
    fold w in Hdeb. rewrite Forall_forall in Hdeb.
    assert (Hd : callback t = DebouncedCheck)
      by (apply (Hdeb t Hin); congruence).
    congruence. }
  split; [|split].
  - intros e Hne.
    destruct e as [target| |page' records|dt|n reply|expanded|]; cbn [step].
    + destruct (mousedownListener w); [|exact Hin].
      open_handler. destruct (closest _ _ _); exact Hin.
    + destruct (mouseupListener w); [|exact Hin].
      open_handler. destruct (isDragging w); [|exact Hin].
      cbn. apply in_or_app. now left.
    + destruct (_ && _); [|exact Hin].
      open_handler. destruct (debounceTimeout w) as [id|] eqn:Hid; cbn.
      * apply in_or_app. left. apply clearTimeout_keeps; auto.
      * apply in_or_app. now left.
    + now destruct (Hne dt).
    + unfold hostReplies, exec, settle.
      destruct (nth_error (suspended w) n); [|exact Hin].
      destruct reply; exact Hin.
    + rewrite resizeWindow_exec_cases.
      destruct (negb expanded && _); [exact Hin|].
      destruct (strictEquals _ expanded); exact Hin.
    + open_handler. destruct (debounceTimeout w) as [id|] eqn:Hid; cbn.
      * apply clearTimeout_keeps; auto.
      * exact Hin.
  - intros dt Hlt. cbn [step]. unfold elapse.
    match goal with
    | |- context [fold_left _ ?ts ?w0] =>
        destruct (fold_fire_keeps_timers ts w0) as (Ht & _)
    end.
    cbv zeta in Ht. rewrite Ht. cbn.
    apply filter_In. split; [exact Hin|].
    apply negb_true_iff, N.leb_gt. exact Hlt.
  - intros dt Hle. cbn [step]. unfold elapse.
    rewrite fold_fire_evaluations. cbn [evaluations set_clock set_timers].
    set (ready := firingOrder _).
    assert (Hready : In t ready).
    { apply firingOrder_In, filter_In. split; [exact Hin|].
      apply N.leb_le. exact Hle. }
    apply in_split in Hready. destruct Hready as (l1 & l2 & ->).
    rewrite map_app. cbn [map]. rewrite Hcb. eauto.
Qed.

Lemma drag_release_timer_is_never_cancelled_witness :
  let w := run [MouseDown dragHandle; MouseUp] (mount pageIdle) in
  let t := {| timerId := 1; due := 100; callback := DragReleaseCheck |} in
  In t (timers (step Unmount w))
  /\ In t (timers (step (Mutation pagePopover [bodyChildList]) w)).
Proof.
  pose proof (drag_release_timer_is_never_cancelled
                [MouseDown dragHandle; MouseUp] pageIdle
                {| timerId := 1; due := 100; callback := DragReleaseCheck |}) as H.
  destruct H as (Hkeep & _ & _).
  - left. reflexivity.
  - reflexivity.
  - split; apply Hkeep; discriminate.
Defined.

(** *** Pointer events *)

Lemma mousedown_in_drag_region (w : World) (target : NodeRef) :
  mousedownListener w = true ->
  closest dragRegion (document w) target <> None ->
  step (MouseDown target) w = set_isDragging true w.
Proof.
  intros Hl Hc. cbn [step]. rewrite Hl.
  unfold exec, handleMouseDown, bind, reads. fold dragRegion.
  destruct (closest dragRegion (document w) target); [reflexivity | contradiction].
Qed.

Lemma mousedown_outside_drag_region (w : World) (target : NodeRef) :
  closest dragRegion (document w) target = None ->
  step (MouseDown target) w = w.
Proof.
  intros Hc. cbn [step]. destruct (mousedownListener w); [|reflexivity].
  unfold exec, handleMouseDown, bind, reads. fold dragRegion.
  now rewrite Hc.
Qed.

Lemma mouseup_after_drag (w : World) :
  mouseupListener w = true ->
  isDragging w = true ->
  step MouseUp w =
    set_nextTimerId (Pos.succ (nextTimerId w))
      (set_timers
         (timers w ++ [{| timerId := nextTimerId w;
                          due := (clock w + 100)%N;
                          callback := DragReleaseCheck |}])
         (set_isDragging false w)).
Proof.
  intros Hl Hd. cbn [step]. rewrite Hl.
  unfold exec, handleMouseUp, bind, reads. rewrite Hd. reflexivity.
Qed.

Lemma mouseup_without_drag (w : World) :
  isDragging w = false -> step MouseUp w = w.
Proof.
  intros Hd. cbn [step]. destruct (mouseupListener w); [|reflexivity].
  unfold exec, handleMouseUp, bind, reads. now rewrite Hd.
Qed.

(** X7: a press inside a drag region followed by a release collapses
    the window 100ms later. With both listeners attached, no timer
    pending, no popover open and the remembered state not already
    collapsed: once at least 100ms have passed after the release, the
    drag-release check has run once, due 100ms after the release,
    exactly one [set_window_height] 54 was sent, the drag flag is
    cleared and no timer is left. *)
Theorem drag_release_collapses (w : World) (target : NodeRef) (dt : N) :
  mousedownListener w = true ->
  mouseupListener w = true ->
  timers w = [] ->
  closest dragRegion (document w) target <> None ->
  popoverOpen w = false ->
  currentExpandedRef w <> Some false ->
  (100 <= dt)%N ->
  let w' := run [MouseDown target; MouseUp; Elapse dt] w in
  received w' = received w ++ [setWindowHeight false]
  /\ evaluations w' = evaluations w ++ [(DragReleaseCheck, (clock w + 100)%N)]
  /\ isDragging w' = false
  /\ timers w' = [].
Proof.
  intros Hdown Hup Hnone Hc Hclosed Href Hdt. cbv zeta.
  rewrite !run_cons. change (run [] ?x) with x.
  rewrite (mousedown_in_drag_region _ _ Hdown Hc).
  rewrite mouseup_after_drag; [|exact Hup | reflexivity].
  cbn [step]. unfold elapse. cbn [timers set_nextTimerId set_timers set_isDragging clock].
  rewrite Hnone. cbn [app filter due].
  replace (clock w + 100 <=? clock w + dt)%N with true
    by (symmetry; apply N.leb_le; lia).
  cbn [negb firingOrder fold_right insertByDue fold_left].
  match goal with
  | |- context [exec (fire ?t) ?w0] =>
      destruct (fire_sends t w0) as (cs & Hr & _ & _ & Hone & _);
      destruct (fire_evaluates_once t w0) as [He Ht];
      destruct (fire_keeps_timers t w0) as (_ & _ & _);
      assert (Hdrag : isDragging (exec (fire t) w0) = false);
      [ rewrite fire_exec, resizeWindow_exec_cases;
        destruct (negb false && _); [reflexivity|];
        destruct (strictEquals _ false); reflexivity
      | rewrite Hr, He, Ht, Hdrag, (Hone Hclosed Href) ]
  end.
  repeat split.
Qed.

Lemma drag_release_collapses_witness :
  let w' := run [MouseDown dragHandle; MouseUp; Elapse 100] (mount pageIdle) in
  received w' = [setWindowHeight false]
  /\ evaluations w' = [(DragReleaseCheck, 100%N)]
  /\ isDragging w' = false
  /\ timers w' = [].
Proof.
  apply (drag_release_collapses (mount pageIdle) dragHandle 100%N);
    try reflexivity; discriminate.
Defined.

(** X8: a release schedules a collapse check only if a press on a drag
    region came since the last release. A press outside every drag
    region followed by a release changes nothing when no drag was under
    way; and two releases in a row do what one does. *)
Theorem release_without_drag_does_nothing (w : World) (target : NodeRef) :
  (isDragging w = false ->
   closest dragRegion (document w) target = None ->
   run [MouseDown target; MouseUp] w = w)
  /\ step MouseUp (step MouseUp w) = step MouseUp w.
Proof.
  split.
  - intros Hd Hc. rewrite !run_cons. change (run [] ?x) with x.
    rewrite (mousedown_outside_drag_region _ _ Hc).
    now apply mouseup_without_drag.
  - destruct (mouseupListener w) eqn:Hl.
    + destruct (isDragging w) eqn:Hd.
      * rewrite (mouseup_after_drag _ Hl Hd). now apply mouseup_without_drag.
      * rewrite (mouseup_without_drag _ Hd). now apply mouseup_without_drag.
    + assert (Hsame : step MouseUp w = w) by (cbn [step]; now rewrite Hl).
      now rewrite !Hsame.
Qed.

Lemma release_without_drag_does_nothing_witness :
  run [MouseDown popoverTrigger; MouseUp] (mount pageIdle) = mount pageIdle.
Proof.
  apply (release_without_drag_does_nothing (mount pageIdle) popoverTrigger);
    reflexivity.
Defined.

Lemma chain_app (p q : Path) (acc : list Element) (root : Element) :
  chain acc root (p ++ q) =
    match chain acc root p with
    | Some (n :: up) => chain up n q
    | _ => None
    end.
Proof.
  revert acc root. induction p as [|i p IH]; intros acc root; simpl.
  - reflexivity.
  - destruct (nth_error (children_of root) i) as [child|]; [apply IH | reflexivity].
Qed.

Lemma chain_extends (q : Path) (acc : list Element) (n : Element)
      (l : list Element) :
  chain acc n q = Some l -> exists below, l = below ++ n :: acc.
Proof.
  revert acc n. induction q as [|i q IH]; intros acc n H; simpl in H.
  - injection H as <-. now exists [].
  - destruct (nth_error (children_of n) i) as [child|]; [|discriminate].
    destruct (IH _ _ H) as (below & ->).
    exists (below ++ [child]). now rewrite <- app_assoc.
Qed.

Lemma find_app_found {A : Type} (f : A -> bool) (l1 l2 : list A) :
  find f l2 <> None -> find f (l1 ++ l2) <> None.
Proof.
  intros H. induction l1 as [|x l1 IH]; simpl; [exact H|].
  destruct (f x); [discriminate | exact IH].
Qed.

(** X9: a drag region covers everything inside it. If [closest] finds
    a drag region from some node of [<body>], it finds one from every
    node below that node, so a press there sets the drag flag too. *)
Theorem press_inside_drag_region_starts_drag (w : World) (p q : Path) :
  mousedownListener w = true ->
  closest dragRegion (document w) (InBody p) <> None ->
  inclusiveAncestors (document w) (InBody (p ++ q)) <> None ->
  closest dragRegion (document w) (InBody (p ++ q)) <> None
  /\ isDragging (step (MouseDown (InBody (p ++ q))) w) = true.
Proof.
  intros Hl Hfound Hvalid.
  assert (Hdeep : closest dragRegion (document w) (InBody (p ++ q)) <> None).
  { unfold closest, inclusiveAncestors in *. rewrite chain_app in *.
    destruct (chain [documentElement (document w)] (body (document w)) p)
      as [[|n up]|] eqn:Hp; try contradiction.
    destruct (chain up n q) as [l|] eqn:Hq; [|contradiction].
    destruct (chain_extends _ _ _ _ Hq) as (below & ->).
    now apply find_app_found. }
  split; [exact Hdeep|].
  now rewrite (mousedown_in_drag_region _ _ Hl Hdeep).
Qed.

Lemma press_inside_drag_region_starts_drag_witness :
  isDragging (step (MouseDown dragHandle) (mount pageIdle)) = true.
Proof.
  apply (press_inside_drag_region_starts_drag (mount pageIdle) [0; 0]%nat [0]%nat);
    [reflexivity | discriminate | discriminate].
Defined.

(** *** The observer and the teardown *)

(** X10: with the options of lines 85-90 the observer is called for a
    mutation record exactly when the record's target is [<body>]
    itself and the record is a child-list change or a change of the
    [data-state] attribute. A batch with no such record only changes
    the page: no timer is set or cleared. *)
Theorem observer_called_exactly_for_body :
  (forall r : MutationRecord,
      bodyObserverInterested observeOptions r = true <->
      mutationTarget r = InBody []
      /\ (mutationType r = ChildListChange
          \/ mutationType r = AttributeChange "data-state"))
  /\ (forall (w : World) (page : Document) (records : list MutationRecord),
      Forall (fun r => mutationTarget r <> InBody []
                       \/ (mutationType r <> ChildListChange
                           /\ mutationType r <> AttributeChange "data-state"))
             records ->
      step (Mutation page records) w = set_document page w).
Proof.
  assert (Hiff : forall r : MutationRecord,
      bodyObserverInterested observeOptions r = true <->
      mutationTarget r = InBody []
      /\ (mutationType r = ChildListChange
          \/ mutationType r = AttributeChange "data-state")).
  { intros [ty tg]. unfold bodyObserverInterested. cbn [mutationTarget mutationType].
    destruct tg as [|p|[|i p]]; try (split; [discriminate | intros [[=] _]]).
    destruct ty as [name| |]; cbn.
    - rewrite orb_false_r. split.
      + intros H. apply String.eqb_eq in H. subst. auto.
      + intros [_ [[=]|[= ->]]]. reflexivity.
    - split; auto.
    - split; [discriminate | intros [_ [[=]|[=]]]]. }
  split; [exact Hiff|].
  intros w page records Hall. cbn [step].
  assert (Hnone : existsb (bodyObserverInterested observeOptions) records = false).
  { induction Hall as [|r rs Hr _ IH]; [reflexivity|]. cbn [existsb].
    rewrite IH, orb_false_r.
    destruct (bodyObserverInterested observeOptions r) eqn:Hint; [|reflexivity].
    apply Hiff in Hint. destruct Hint as [Htg Hty]. tauto. }
  rewrite Hnone, andb_false_r. reflexivity.
Qed.

Lemma observer_called_exactly_for_body_witness :
  step (Mutation pageTriggerOpen
          [triggerToggled;
           {| mutationType := CharacterDataChange; mutationTarget := InBody [] |}])
       (mount pageIdle)
  = set_document pageTriggerOpen (mount pageIdle).
Proof.
  destruct observer_called_exactly_for_body as [_ H]. apply H.
  constructor; [left; discriminate|].
  constructor; [right; split; discriminate | constructor].
Defined.

Lemma observed_mutation_keeps_host (w : World) (page : Document)
      (records : list MutationRecord) :
  let w1 := step (Mutation page records) w in
  received w1 = received w
  /\ currentExpandedRef w1 = currentExpandedRef w
  /\ document w1 = page.
Proof.
  cbn [step]. destruct (_ && _); [|repeat split].
  open_handler. destruct (debounceTimeout w); repeat split.
Qed.

(** X11: an observed mutation collapses the window 150ms later. With
    the observer connected and no timer pending but possibly the
    debounce timer: after a batch the observer is called for, on a page
    that shows no popover, and with the remembered state not already
    collapsed, once at least 150ms have passed the debounced check has
    run once, due 150ms after the batch, exactly one
    [set_window_height] 54 was sent and no timer is left. *)
Theorem observed_mutation_collapses
        (w : World) (page : Document) (records : list MutationRecord) (dt : N) :
  observerConnected w = true ->
  onlyDebounceTimer w ->
  existsb (bodyObserverInterested observeOptions) records = true ->
  popoverOpen (set_document page w) = false ->
  currentExpandedRef w <> Some false ->
  (150 <= dt)%N ->
  let w' := run [Mutation page records; Elapse dt] w in
  received w' = received w ++ [setWindowHeight false]
  /\ evaluations w' = evaluations w ++ [(DebouncedCheck, (clock w + 150)%N)]
  /\ timers w' = [].
Proof.
  intros Hconn Honly Hobs Hclosed Href Hdt. cbv zeta.
  rewrite !run_cons. change (run [] ?x) with x.
  destruct (observed_mutation_arms w page records Hconn Honly Hobs)
    as (Harmed & Hclock & Hev).
  destruct (observed_mutation_keeps_host w page records) as (Hrec & Href1 & Hdoc).
  set (w1 := step (Mutation page records) w) in *.
  destruct Harmed as (id & Ht & _ & _).
  cbn [step]. unfold elapse. rewrite Ht. cbn [filter due].
  replace (clock w + 150 <=? clock w1 + dt)%N with true
    by (symmetry; apply N.leb_le; lia).
  cbn [negb firingOrder fold_right insertByDue fold_left].
  match goal with
  | |- context [exec (fire ?t) ?w0] =>
      destruct (fire_sends t w0) as (cs & Hr & _ & _ & Hone & _);
      destruct (fire_evaluates_once t w0) as [He Hti];
      rewrite Hr, He, Hti; rewrite Hone
  end.
  - cbn [received evaluations timers set_clock set_timers].
    rewrite Hrec, Hev. repeat split.
  - rewrite <- Hclosed. apply popoverOpen_document.
    cbn [document set_clock set_timers set_document]. exact Hdoc.
  - cbn [currentExpandedRef set_clock set_timers]. now rewrite Href1.
Qed.

Lemma observed_mutation_collapses_witness :
  let w := set_currentExpandedRef (Some true) (mount pagePopover) in
  let w' := run [Mutation pageIdle [bodyChildList]; Elapse 150] w in
  received w' = [setWindowHeight false]
  /\ evaluations w' = [(DebouncedCheck, 150%N)]
  /\ timers w' = [].
Proof.
  apply (observed_mutation_collapses
           (set_currentExpandedRef (Some true) (mount pagePopover))
           pageIdle [bodyChildList] 150%N);
    try reflexivity; try discriminate.
  constructor.
Defined.

Lemma detached_ambient_step (e : Event) (w : World) :
  ambient e = true ->
  mousedownListener w = false -> mouseupListener w = false ->
  observerConnected w = false -> timers w = [] ->
  let w' := step e w in
  (mousedownListener w' = false /\ mouseupListener w' = false
   /\ observerConnected w' = false /\ timers w' = [])
  /\ received w' = received w
  /\ suspended w' = suspended w
  /\ evaluations w' = evaluations w
  /\ currentExpandedRef w' = currentExpandedRef w
  /\ isDragging w' = isDragging w.
Proof.
  intros Hamb Hd Hu Ho Ht.
  destruct e as [target| |page records|dt|n reply|expanded|];
    try discriminate; cbn [step].
  - rewrite Hd. auto 10.
  - rewrite Hu. auto 10.
  - replace (observerConnected (set_document page w)) with false by (now cbn).
    cbn. auto 10.
  - unfold elapse. rewrite Ht. cbn. auto 10.
Qed.

(** X12: when no drag-release timer is pending at the unmount, the
    teardown is complete: whatever pointer events, mutations and time
    follow, no timer callback runs any more, nothing is sent to the
    host, no timer is pending and the remembered state stays as it
    was. *)
Theorem unmount_without_drag_timer_is_final (w : World) (events : list Event) :
  onlyDebounceTimer w ->
  forallb ambient events = true ->
  let w' := run events (step Unmount w) in
  received w' = received w
  /\ evaluations w' = evaluations w
  /\ timers w' = []
  /\ suspended w' = suspended w
  /\ currentExpandedRef w' = currentExpandedRef w.
Proof.
  intros Honly Hamb. cbv zeta.
  destruct (cleanup_detaches w) as (Hd & Hu & Ho).
  pose proof (cleanup_cancels_debounce w Honly) as Ht.
  assert (Hkeep : received (step Unmount w) = received w
                  /\ evaluations (step Unmount w) = evaluations w
                  /\ suspended (step Unmount w) = suspended w
                  /\ currentExpandedRef (step Unmount w) = currentExpandedRef w).
  { cbn [step]. open_handler. destruct (debounceTimeout w); repeat split. }
  destruct Hkeep as (Hr & He & Hs & Href).
  rewrite <- Hr, <- He, <- Hs, <- Href. clear Hr He Hs Href Honly.
  cbv zeta in Hd, Hu, Ho.
  generalize dependent (step Unmount w). clear w.
  induction events as [|e events IH]; intros w0 Hd Hu Ho Ht; [auto|].
  cbn [forallb] in Hamb. apply andb_prop in Hamb. destruct Hamb as [Hamb1 Hamb2].
  rewrite run_cons.
  destruct (detached_ambient_step e w0 Hamb1 Hd Hu Ho Ht)
    as ((Hd1 & Hu1 & Ho1 & Ht1) & Hr1 & Hs1 & He1 & Href1 & _).
  rewrite <- Hr1, <- Hs1, <- He1, <- Href1.
  now apply IH.
Qed.

Lemma unmount_without_drag_timer_is_final_witness :
  let w := run [Mutation pageIdle [bodyChildList]; Elapse 100] (mount pageIdle) in
  let w' := run [MouseDown dragHandle; MouseUp; Mutation pagePopover [bodyChildList];
                 Elapse 1000] (step Unmount w) in
  received w' = [] /\ evaluations w' = [] /\ timers w' = [].
Proof.
  pose proof (unmount_without_drag_timer_is_final
                (run [Mutation pageIdle [bodyChildList]; Elapse 100] (mount pageIdle))
                [MouseDown dragHandle; MouseUp;
                 Mutation pagePopover [bodyChildList]; Elapse 1000]) as H.
  destruct H as (Hr & He & Ht & _).
  - constructor; [split; reflexivity | constructor].
  - reflexivity.
  - split; [exact Hr | split; [exact He | exact Ht]].
Defined.

(** ** Further properties of [useWindowFocus] *)

Lemma handleFocusChange_reaction
      (App : Type) (options : Focus.UseWindowFocusOptions App)
      (focused : bool) (w : Focus.World App) :
  Focus.handleFocusChange options focused w =
    (Normal tt,
     {| Focus.app := reaction options focused (Focus.app w);
        Focus.subscription := Focus.subscription w;
        Focus.console := Focus.console w;
        Focus.unlisten := Focus.unlisten w |}).
Proof.
  destruct w as [a s c u], options as [[l|] [g|]], focused; reflexivity.
Qed.

Lemma focus_run_cons
      (App : Type) (options : Focus.UseWindowFocusOptions App)
      (e : Focus.Event) (events : list Focus.Event) (w : Focus.World App) :
  Focus.run options (e :: events) w =
    Focus.run options events (Focus.step options e w).
Proof. reflexivity. Qed.

Lemma notification_delivered
      (App : Type) (options : Focus.UseWindowFocusOptions App)
      (focused : bool) (w : Focus.World App) :
  Focus.subscription w = Focus.Listening ->
  Focus.step options (Focus.FocusChanged focused) w =
    {| Focus.app := reaction options focused (Focus.app w);
       Focus.subscription := Focus.Listening;
       Focus.console := Focus.console w;
       Focus.unlisten := Focus.unlisten w |}.
Proof.
  intros Hl. cbn [Focus.step]. rewrite Hl. unfold exec.
  rewrite handleFocusChange_reaction. cbn [snd]. now rewrite Hl.
Qed.

Lemma notifications_fold
      (App : Type) (options : Focus.UseWindowFocusOptions App)
      (fs : list bool) (w : Focus.World App) :
  Focus.subscription w = Focus.Listening ->
  Focus.run options (map Focus.FocusChanged fs) w =
    {| Focus.app := fold_left (fun a f => reaction options f a) fs (Focus.app w);
       Focus.subscription := Focus.Listening;
       Focus.console := Focus.console w;
       Focus.unlisten := Focus.unlisten w |}.
Proof.
  revert w. induction fs as [|f fs IH]; intros w Hl.
  - destruct w as [a s c u]. cbn in *. now subst s.
  - cbn [map]. rewrite focus_run_cons, (notification_delivered _ _ _ _ Hl).
    rewrite IH; reflexivity.
Qed.

Lemma silent_step
      (App : Type) (options : Focus.UseWindowFocusOptions App)
      (e : Focus.Event) (w : Focus.World App) :
  silent w ->
  silent (Focus.step options e w)
  /\ Focus.app (Focus.step options e w) = Focus.app w
  /\ Focus.console (Focus.step options e w) = Focus.console w.
Proof.
  intros Hs. destruct e as [reply|focused|]; cbn [Focus.step].
  - destruct Hs as [H|[H|H]]; rewrite H; repeat split; unfold silent; auto.
  - destruct Hs as [H|[H|H]]; rewrite H; repeat split; unfold silent; auto.
  - unfold exec, Focus.cleanup, bind, reads.
    destruct (Focus.unlisten w) as [[]|]; cbn.
    + repeat split. now left.
    + repeat split. exact Hs.
Qed.

Lemma silent_run
      (App : Type) (options : Focus.UseWindowFocusOptions App)
      (events : list Focus.Event) (w : Focus.World App) :
  silent w ->
  silent (Focus.run options events w)
  /\ Focus.app (Focus.run options events w) = Focus.app w
  /\ Focus.console (Focus.run options events w) = Focus.console w.
Proof.
  revert w. induction events as [|e events IH]; intros w Hs; [auto|].
  rewrite focus_run_cons.
  destruct (silent_step App options e w Hs) as (Hs1 & Ha1 & Hc1).
  destruct (IH _ Hs1) as (Hs2 & Ha2 & Hc2).
  rewrite Ha2, Hc2. auto.
Qed.

(** X13: focus notifications are neither dropped nor merged. While the
    host delivers notifications, a sequence of them runs, for each one
    in order, the callback that matches its payload when it is
    provided, and touches nothing else. *)
Theorem focus_notifications_run_in_order
        (App : Type) (options : Focus.UseWindowFocusOptions App)
        (fs : list bool) (w : Focus.World App) :
  Focus.subscription w = Focus.Listening ->
  let w' := Focus.run options (map Focus.FocusChanged fs) w in
  Focus.app w' = fold_left (fun a f => reaction options f a) fs (Focus.app w)
  /\ Focus.subscription w' = Focus.Listening
  /\ Focus.console w' = Focus.console w
  /\ Focus.unlisten w' = Focus.unlisten w.
Proof.
  intros Hl. cbv zeta. rewrite (notifications_fold App options fs w Hl).
  repeat split.
Qed.

Lemma focus_notifications_run_in_order_witness :
  let w := Focus.run countingOptions [Focus.SubscribeSettles Resolved]
                     (Focus.mount (0, 0)%nat) in
  Focus.app
    (Focus.run countingOptions
       (map Focus.FocusChanged [true; false; false; true; false]) w)
  = (2, 3)%nat.
Proof.
  pose proof (focus_notifications_run_in_order
                (nat * nat) countingOptions [true; false; false; true; false]
                (Focus.run countingOptions [Focus.SubscribeSettles Resolved]
                           (Focus.mount (0, 0)%nat))) as H.
  destruct H as (Happ & _); [reflexivity | exact Happ].
Defined.

(** X14: when the registration completes before the unmount, the
    teardown is clean. Whatever notifications arrive while mounted,
    they run their callbacks in order; the unmount then removes the
    listener; and from then on no event (further notifications, a late
    reply, another cleanup) runs a callback or logs anything. *)
Theorem subscription_then_unmount_is_clean
        (App : Type) (options : Focus.UseWindowFocusOptions App) (a : App)
        (fs : list bool) (later : list Focus.Event) :
  let w := Focus.run options
             (Focus.SubscribeSettles Resolved
                :: map Focus.FocusChanged fs ++ [Focus.Unmount])
             (Focus.mount a) in
  Focus.subscription w = Focus.Unlistened
  /\ Focus.app w = fold_left (fun x f => reaction options f x) fs a
  /\ Focus.console w = []
  /\ Focus.app (Focus.run options later w) = Focus.app w
  /\ Focus.console (Focus.run options later w) = []
  /\ Focus.subscription (Focus.run options later w) <> Focus.Listening.
Proof.
  cbv zeta.
  set (w := Focus.run options _ (Focus.mount a)).
  assert (Hw : w = {| Focus.app := fold_left (fun x f => reaction options f x) fs a;
                      Focus.subscription := Focus.Unlistened;
                      Focus.console := [];
                      Focus.unlisten := Some Focus.RemoveListener |}).
  { subst w. rewrite focus_run_cons. unfold Focus.run. rewrite fold_left_app.
    fold (Focus.run options (map Focus.FocusChanged fs)
                    (Focus.step options (Focus.SubscribeSettles Resolved)
                                (Focus.mount a))).
    rewrite notifications_fold; reflexivity. }
  assert (Hs : silent w) by (rewrite Hw; now left).
  destruct (silent_run App options later w Hs) as (Hs' & Ha' & Hc').
  split; [now rewrite Hw|]. split; [now rewrite Hw|]. split; [now rewrite Hw|].
  split; [exact Ha'|]. split; [now rewrite Hc', Hw|].
  destruct Hs' as [H|[H|H]]; rewrite H; discriminate.
Qed.

(** X15: when the registration fails, the failure is logged once with
    [console.error] and that is all: whatever events follow
    (notifications, the unmount), no callback runs, nothing more is
    logged and the host never delivers. *)
Theorem failed_subscription_is_logged_once
        (App : Type) (options : Focus.UseWindowFocusOptions App) (a : App)
        (error : string) (later : list Focus.Event) :
  let w := Focus.run options (Focus.SubscribeSettles (Rejected error) :: later)
                     (Focus.mount a) in
  Focus.app w = a
  /\ Focus.console w = [("Failed to setup focus listener: " ++ error)%string]
  /\ Focus.subscription w <> Focus.Listening.
Proof.
  cbv zeta. rewrite focus_run_cons.
  set (w1 := Focus.step options (Focus.SubscribeSettles (Rejected error))
                        (Focus.mount a)).
  assert (Hs : silent w1) by (right; left; reflexivity).
  destruct (silent_run App options later w1 Hs) as (Hs' & Ha' & Hc').
  rewrite Ha', Hc'. repeat split.
  destruct Hs' as [H|[H|H]]; rewrite H; discriminate.
Qed.

(** ** How events compose *)

Lemma unmount_keeps_host (w : World) :
  document (step Unmount w) = document w
  /\ currentExpandedRef (step Unmount w) = currentExpandedRef w
  /\ suspended (step Unmount w) = suspended w.
Proof.
  cbn [step]. open_handler. destruct (debounceTimeout w); repeat split.
Qed.

Lemma hostReplies_cases (n : nat) (reply : HostReply) (w : World) :
  hostReplies n reply w =
    match nth_error (suspended w) n with
    | None => w
    | Some s =>
        let w1 := set_suspended (removeNth n (suspended w)) w in
        match reply with
        | Resolved =>
            set_currentExpandedRef (Some (requested s))
              (set_applied (applied w ++ [sent s]) w1)
        | Rejected error =>
            set_console
              (console w ++ [("Failed to resize window: " ++ error)%string]) w1
        end
    end.
Proof.
  unfold hostReplies, exec, settle.
  destruct (nth_error (suspended w) n); [|reflexivity].
  destruct reply; reflexivity.
Qed.

(** X16: the unmount does not reach [resizeWindow]. The cleanup touches
    neither the remembered state nor the calls waiting for the host, so
    a call of [resizeWindow] made by the view, or a host reply that
    arrives, has the same effect after the unmount as before it: the
    two orders end in the same world. *)
Theorem unmount_commutes_with_resizeWindow (w : World) :
  (forall expanded,
      step (CallResize expanded) (step Unmount w)
      = step Unmount (step (CallResize expanded) w))
  /\ (forall n reply,
      step (HostReplies n reply) (step Unmount w)
      = step Unmount (step (HostReplies n reply) w)).
Proof.
  destruct (unmount_keeps_host w) as (Hdoc & Href & Hsus).
  split.
  - intros expanded. cbn [step]. fold (step Unmount w).
    rewrite !resizeWindow_exec_cases, (popoverOpen_document _ _ Hdoc), Href.
    destruct (negb expanded && popoverOpen w); [reflexivity|].
    destruct (strictEquals (currentExpandedRef w) expanded); [reflexivity|].
    cbn [step]. open_handler. destruct (debounceTimeout w); reflexivity.
  - intros n reply. clear Hdoc Href Hsus.
    destruct w as [doc clk ts nxt md mu oc rc ap su co ev re dr db].
    cbn [step]. rewrite !hostReplies_cases.
    unfold exec, cleanup, bind, reads, updates, clearTimeout, ret.
    destruct db as [id|]; cbn;
      (destruct (nth_error su n) as [s|]; [destruct reply|]; reflexivity).
Qed.

Lemma fire_past_clock (t : Timer) (c : N) (r : list Timer) (w : World) :
  exec (fire t) (set_clock c (set_timers r w))
  = set_clock c (set_timers r (exec (fire t) w)).
Proof.
  rewrite !fire_exec, !resizeWindow_exec_cases.
  repeat match goal with
         | |- context [popoverOpen ?a] =>
             lazymatch a with
             | w => fail
             | _ => change (popoverOpen a) with (popoverOpen w)
             end
         end.
  cbn [currentExpandedRef set_evaluations set_clock set_timers].
  destruct (negb false && popoverOpen w); [reflexivity|].
  destruct (strictEquals (currentExpandedRef w) false); reflexivity.
Qed.

Lemma fold_fire_past_clock (ts : list Timer) (c : N) (r : list Timer) (w : World) :
  fold_left (fun w0 t => exec (fire t) w0) ts (set_clock c (set_timers r w))
  = set_clock c (set_timers r (fold_left (fun w0 t => exec (fire t) w0) ts w)).
Proof.
  revert w. induction ts as [|t ts IH]; intros w; simpl; [reflexivity|].
  now rewrite fire_past_clock, IH.
Qed.

Lemma elapse_unfolded (dt : N) (w : World) :
  elapse dt w =
    set_clock (clock w + dt)%N
      (set_timers (filter (fun t => negb (due t <=? clock w + dt)%N) (timers w))
         (fold_left (fun w0 t => exec (fire t) w0)
            (firingOrder (filter (fun t => (due t <=? clock w + dt)%N) (timers w)))
            w)).
Proof. unfold elapse. apply fold_fire_past_clock. Qed.

Lemma insertByDue_before (x : Timer) (A B : list Timer) :
  Forall (fun b => (due b <? due x)%N = false) B ->
  insertByDue x (A ++ B) = insertByDue x A ++ B.
Proof.
  intros HB. induction A as [|u A IH]; simpl.
  - destruct HB as [|b B Hb _]; simpl; [reflexivity | now rewrite Hb].
  - destruct (due u <? due x)%N; [now rewrite IH | reflexivity].
Qed.

Lemma insertByDue_after (x : Timer) (A B : list Timer) :
  Forall (fun a => (due a <? due x)%N = true) A ->
  insertByDue x (A ++ B) = A ++ insertByDue x B.
Proof.
  induction 1 as [|u A Hu _ IH]; simpl; [reflexivity|].
  now rewrite Hu, IH.
Qed.

Lemma firingOrder_cons (x : Timer) (l : list Timer) :
  firingOrder (x :: l) = insertByDue x (firingOrder l).
Proof. reflexivity. Qed.

(** Sorting the timers due by [n2] puts those due by [n1] first. *)
Lemma firingOrder_split (n1 n2 : N) (ts : list Timer) :
  (n1 <= n2)%N ->
  firingOrder (filter (fun t => (due t <=? n2)%N) ts) =
    firingOrder (filter (fun t => (due t <=? n1)%N) ts)
    ++ firingOrder (filter (fun t => (due t <=? n2)%N)
                           (filter (fun t => negb (due t <=? n1)%N) ts)).
Proof.
  intros Hle. induction ts as [|x ts IH]; [reflexivity|].
  cbn [filter].
  destruct (due x <=? n1)%N eqn:H1; cbn [negb].
  - assert (H2 : (due x <=? n2)%N = true)
      by (apply N.leb_le; apply N.leb_le in H1; lia).
    rewrite H2, !firingOrder_cons, IH.
    apply insertByDue_before. apply Forall_forall. intros b Hb.
    apply (proj1 (firingOrder_In _ _)) in Hb. apply filter_In in Hb.
    destruct Hb as [Hb _]. apply filter_In in Hb. destruct Hb as [_ Hb].
    apply negb_true_iff, N.leb_gt in Hb. apply N.leb_le in H1.
    apply N.ltb_ge. lia.
  - cbn [filter]. destruct (due x <=? n2)%N eqn:H2.
    + rewrite !firingOrder_cons, IH.
      apply insertByDue_after. apply Forall_forall. intros a Ha.
      apply (proj1 (firingOrder_In _ _)) in Ha. apply filter_In in Ha.
      destruct Ha as [_ Ha]. apply N.leb_le in Ha. apply N.leb_gt in H1.
      apply N.ltb_lt. lia.
    + exact IH.
Qed.

Lemma filter_later (n1 n2 : N) (ts : list Timer) :
  (n1 <= n2)%N ->
  filter (fun t => negb (due t <=? n2)%N)
         (filter (fun t => negb (due t <=? n1)%N) ts)
  = filter (fun t => negb (due t <=? n2)%N) ts.
Proof.
  intros Hle. induction ts as [|x ts IH]; [reflexivity|]. cbn [filter].
  destruct (due x <=? n1)%N eqn:H1; cbn [negb filter].
  - replace (due x <=? n2)%N with true
      by (symmetry; apply N.leb_le; apply N.leb_le in H1; lia).
    exact IH.
  - now rewrite IH.
Qed.

(** X17: how time is sliced does not matter. Because the timer
    callbacks of the hook neither set nor clear timers, letting [a]
    and then [b] milliseconds pass leaves the same world as letting
    [a + b] pass at once: the same timers run, in the same order, with
    the same effect. *)
Theorem elapse_in_two_steps (a b : N) (w : World) :
  step (Elapse b) (step (Elapse a) w) = step (Elapse (a + b)) w.
Proof.
  cbn [step]. rewrite (elapse_unfolded a w).
  set (n1 := (clock w + a)%N).
  set (ready1 := firingOrder (filter (fun t => (due t <=? n1)%N) (timers w))).
  set (rest1 := filter (fun t => negb (due t <=? n1)%N) (timers w)).
  set (w1 := fold_left (fun w0 t => exec (fire t) w0) ready1 w).
  rewrite !elapse_unfolded.
  cbn [clock timers set_clock set_timers].
  rewrite fold_fire_past_clock.
  replace (clock w + (a + b))%N with (n1 + b)%N by (subst n1; lia).
  assert (Hle : (n1 <= n1 + b)%N) by lia.
  unfold rest1. rewrite (filter_later n1 (n1 + b) _ Hle).
  rewrite (firingOrder_split n1 (n1 + b) (timers w) Hle).
  rewrite fold_left_app. fold ready1. fold w1.
  destruct (fold_left _ _ w1); reflexivity.
Qed.
